(** * Speech metrics and persona scoring: a shallow embedding

    This development embeds the two pure components of the backend,

    - [backend/agents/metrics.py]: [compute_wpm], [count_fillers],
      [compute_metrics], [compute_highlights], [split_sentences];
    - [backend/agents/coach_engine.py]: [_score_pace],
      [_score_filler_control], [score_against_persona];

    the catalog of [backend/agents/persona_profiles.py], and the code
    around them, with its environment as parameters:

    - [backend/agents/tts_murf.py]: [generate_tts_with_murf];
    - [backend/main.py]: [analyze_speech], [confirm_feedback];

    and proves properties of them.

    Modelling conventions.

    - A Python [str] is a [string]; each [ascii] stands for one code point
      in U+0000..U+00FF, and the character classes below ([\w], white
      space, [str.lower]) are Python's on that range.
    - A Python [int] is a [Z].
    - A Python [float] is an exact rational [Q]: the value is finite
      (the infinities and NaN of binary64 are not modelled) and
      arithmetic is not rounded to binary64.  Equalities between
      computed floats are therefore stated with [==].
    - [Py.round] rounds the exact value half-to-even.  The code rounds a
      binary64 value, which at a decimal tie may go to either neighbour
      ([round(0.075, 2)] is 0.07); statements about a rounded result use
      the relation [RoundSpec.rounded], which leaves a tie open.
    - A [dict] of numbers is a [gmap string num]; the persona, a [dict]
      used as a structure, is a record whose optional keys are [option]s. *)

From Stdlib Require Import ZArith QArith Qround Qminmax Qabs Qpower Lqa Lia.
From Stdlib Require Import Ascii String List Bool Sorted.
From stdpp Require Import gmap strings list fin_maps.

Local Open Scope string_scope.

(** ** Characters: Python's classes on U+0000..U+00FF *)

Module Chars.

Definition code (c : ascii) : N := N_of_ascii c.

Definition between (lo hi n : N) : bool := ((lo <=? n) && (n <=? hi))%N.

(** [\w] of a [str] pattern: letters, digits, underscore (the alphanumeric
    code points of Latin-1 included). *)
Definition is_word_char (c : ascii) : bool :=
  let n := code c in
  between 48 57 n || between 65 90 n || (n =? 95)%N || between 97 122 n
  || (n =? 170)%N || between 178 179 n || (n =? 181)%N || between 185 186 n
  || between 188 190 n || between 192 214 n || between 216 246 n
  || between 248 255 n.

(** White space of [str.split()] (the characters with [str.isspace()]). *)
Definition is_space (c : ascii) : bool :=
  let n := code c in
  between 9 13 n || between 28 32 n || (n =? 133)%N || (n =? 160)%N.

(** [str.lower()] on one character. *)
Definition lower_char (c : ascii) : ascii :=
  let n := code c in
  if between 65 90 n || between 192 214 n || between 216 222 n
  then ascii_of_N (n + 32)
  else c.

(** The class [[\w'-]] of the word pattern. *)
Definition is_token_char (c : ascii) : bool :=
  is_word_char c || Ascii.eqb c "'" || Ascii.eqb c "-".

End Chars.

(** ** Strings *)

Module Str.

(** Truthiness of a [str]: [not transcript] holds of the empty string. *)
Definition is_empty (s : string) : bool :=
  match s with
  | EmptyString => true
  | String _ _ => false
  end.

(** [s.lower()] *)
Fixpoint lower (s : string) : string :=
  match s with
  | EmptyString => EmptyString
  | String c s' => String (Chars.lower_char c) (lower s')
  end.

(** [s.split()]: split on runs of white space, no empty token.  [cur]
    holds the token being read, most recent character first. *)
Definition flush (cur : list ascii) (rest : list string) : list string :=
  match cur with
  | [] => rest
  | _ :: _ => string_of_list_ascii (rev cur) :: rest
  end.

Fixpoint split_from (cur : list ascii) (s : string) : list string :=
  match s with
  | EmptyString => flush cur []
  | String c s' =>
      if Chars.is_space c
      then flush cur (split_from [] s')
      else split_from (c :: cur) s'
  end.

Definition split (s : string) : list string := split_from [] s.

Definition head (s : string) : option ascii :=
  match s with
  | EmptyString => None
  | String c _ => Some c
  end.

End Str.

(** ** The fragment of [re] the metrics use

    Both patterns of [metrics.py] are sequences of three kinds of atoms:
    the word boundary [\b], an escaped literal character, and a greedy
    repetition [[...]+] of a character class. *)

Module Re.

Inductive atom : Type :=
| WordBoundary
| Lit (c : ascii)
| ClassPlus (cls : ascii -> bool).

Definition pattern : Type := list atom.

Definition word_before (prev : option ascii) : bool :=
  match prev with
  | Some c => Chars.is_word_char c
  | None => false
  end.

(** [\b] holds between a [\w] character and a non-[\w] character, the
    two ends of the string counting as non-[\w]. *)
Definition at_boundary (prev : option ascii) (s : string) : bool :=
  xorb (word_before prev) (word_before (Str.head s)).

(** One attempt at the current position, in the order of a backtracking
    matcher: the repetition takes as many characters as it can and gives
    them back one at a time.  [prev] is the character before the
    position; the result is the matched text. *)
Fixpoint match_here (p : pattern) (prev : option ascii) (s : string)
  {struct p} : option string :=
  match p with
  | [] => Some EmptyString
  | WordBoundary :: p' =>
      if at_boundary prev s then match_here p' prev s else None
  | Lit c :: p' =>
      match s with
      | String d s' =>
          if Ascii.eqb c d
          then option_map (String d) (match_here p' (Some d) s')
          else None
      | EmptyString => None
      end
  | ClassPlus cls :: p' =>
      (fix more (s : string) : option string :=
         match s with
         | String d s' =>
             if cls d then
               match more s' with
               | Some m => Some (String d m)
               | None => option_map (String d) (match_here p' (Some d) s')
               end
             else None
         | EmptyString => None
         end) s
  end.

(** The scan of [re.findall]: matches are taken left to right and do not
    overlap.  [skip] counts the characters of the last match that are
    still to be passed. *)
Fixpoint scan (p : pattern) (prev : option ascii) (s : string) (skip : nat)
  {struct s} : list string :=
  match s with
  | EmptyString =>
      match skip with
      | O =>
          match match_here p prev EmptyString with
          | Some m => [m]
          | None => []
          end
      | S _ => []
      end
  | String d s' =>
      match skip with
      | S k => scan p (Some d) s' k
      | O =>
          match match_here p prev s with
          | Some m => m :: scan p (Some d) s' (pred (String.length m))
          | None => scan p (Some d) s' 0
          end
      end
  end.

Definition findall (p : pattern) (text : string) : list string :=
  scan p None text 0.

(** [re.escape(lit)]: every character of [lit] stands for itself. *)
Fixpoint escape (lit : string) : pattern :=
  match lit with
  | EmptyString => []
  | String c lit' => Lit c :: escape lit'
  end.

End Re.

(** ** Numbers *)

Module Py.

(** A number held in a [dict] or a [list]: an [int] or a [float]. *)
Inductive num : Type :=
| Int (z : Z)
| Float (q : Q).

#[export] Instance num_inhabited : Inhabited num := populate (Int 0).

(** [float(v)] *)
Definition float (v : num) : Q :=
  match v with
  | Int z => inject_Z z
  | Float q => q
  end.

(** [x <= y] and [x < y] *)
Definition leb (x y : Q) : bool := Qle_bool x y.
Definition ltb (x y : Q) : bool := negb (Qle_bool y x).

(** [max(a, b)]: the first argument unless the second is greater. *)
Definition max (a b : Q) : Q := if ltb a b then b else a.

(** Nearest integer, ties to the even one. *)
Definition round_half_even (x : Q) : Z :=
  let f := Qfloor x in
  let r := (x - inject_Z f)%Q in
  if ltb r (1 # 2) then f
  else if ltb (1 # 2) r then (f + 1)%Z
  else if Z.even f then f else (f + 1)%Z.

(** [round(x, ndigits)], on the exact value *)
Definition round (x : Q) (ndigits : Z) : Q :=
  (inject_Z (round_half_even (x * 10 ^ ndigits)) / 10 ^ ndigits)%Q.

(** [sum(xs)] *)
Definition sum (xs : list Q) : Q := fold_left Qplus xs 0%Q.

End Py.

(** ** [backend/agents/metrics.py] *)

Module Metrics.
Import Py.

(** [r"\b[\w'-]+\b"] *)
Definition word_pattern : Re.pattern :=
  [Re.WordBoundary; Re.ClassPlus Chars.is_token_char; Re.WordBoundary].

(** [r"\b" + re.escape(filler.lower()) + r"\b"] *)
Definition filler_pattern (filler : string) : Re.pattern :=
  (Re.WordBoundary :: Re.escape (Str.lower filler) ++ [Re.WordBoundary])%list.

Definition default_fillers : list string := ["um"; "uh"; "like"; "you know"].

Definition compute_wpm (transcript : string) (duration_seconds : Q) : Q :=
  if Str.is_empty transcript then 0%Q
  else
    let words := Re.findall word_pattern transcript in
    let word_count := Z.of_nat (length words) in
    if (word_count =? 0)%Z then 0%Q
    else
      let safe_duration := max duration_seconds 0.1%Q in
      let wpm := (inject_Z word_count / safe_duration * 60)%Q in
      wpm.

Definition count_fillers (transcript : string)
  (filler_list : option (list string)) : Z :=
  if Str.is_empty transcript then 0%Z
  else
    let filler_list := default default_fillers filler_list in
    let text := Str.lower transcript in
    fold_left
      (fun total filler =>
         let matches := Re.findall (filler_pattern filler) text in
         (total + Z.of_nat (length matches))%Z)
      filler_list 0%Z.

Definition compute_metrics (transcript : string) (duration_seconds : Q)
  : gmap string num :=
  let words :=
    if Str.is_empty transcript then []
    else Re.findall word_pattern transcript in
  let total_words := Z.of_nat (length words) in
  let wpm := compute_wpm transcript duration_seconds in
  let total_fillers := count_fillers transcript None in
  let fillers_per_min :=
    if leb duration_seconds 0 then 0%Q
    else
      let safe_duration := max duration_seconds 0.1%Q in
      (inject_Z total_fillers / safe_duration * 60)%Q in
  <["wpm" := Float wpm]>
    (<["totalWords" := Int total_words]>
       (<["totalFillers" := Int total_fillers]>
          (<["fillersPerMin" := Float (round fillers_per_min 2)]> ∅))).

(** One entry [{"wordIndex": idx, "type": "filler"}]. *)
Record highlight : Type := { wordIndex : Z; type : string }.

(** The loop [for idx, word in enumerate(words)], from index [idx] on. *)
Fixpoint highlights_from (idx : Z) (words : list string)
  (lowered_fillers : gset string) : list highlight :=
  match words with
  | [] => []
  | word :: words' =>
      if bool_decide (Str.lower word ∈ lowered_fillers)
      then {| wordIndex := idx; type := "filler" |}
             :: highlights_from (idx + 1) words' lowered_fillers
      else highlights_from (idx + 1) words' lowered_fillers
  end.

Definition compute_highlights (transcript : string)
  (filler_list : option (list string)) : list highlight :=
  if Str.is_empty transcript then []
  else
    let filler_list := default default_fillers filler_list in
    let words := Str.split transcript in
    let lowered_fillers : gset string :=
      list_to_set (Str.lower <$> filler_list) in
    highlights_from 0 words lowered_fillers.

End Metrics.

(** ** [backend/agents/coach_engine.py] *)

Module Coach.
Import Py.

(** [target_range] is a list of numbers; the falsy range of
    [not target_range] is the empty list. *)
Definition _score_pace (wpm : Q) (target_range : list num) : Q :=
  if leb wpm 0 || bool_decide (target_range = [])
     || negb (length target_range =? 2)%nat
  then 0.2%Q
  else
    let low := float (target_range !!! 0%nat) in
    let high := float (target_range !!! 1%nat) in
    if leb low wpm && leb wpm high then 0.95%Q
    else
      let range_width := max (high - low) 1 in
      let diff :=
        if ltb wpm low then ((low - wpm) / range_width)%Q
        else ((wpm - high) / range_width)%Q in
      if leb diff 0.15 then 0.8%Q
      else if leb diff 0.5 then 0.5%Q
      else 0.2%Q.

Definition _score_filler_control (fillers_per_min max_allowed : Q) : Q :=
  if leb max_allowed 0 then 0.5%Q
  else if leb fillers_per_min max_allowed then 0.98%Q
  else
    let ratio := (fillers_per_min / max_allowed)%Q in
    if leb 3 ratio then 0.2%Q
    else
      let score := (0.98 - (ratio - 1) * ((0.98 - 0.2) / 2))%Q in
      max 0.2 score.

(** [persona["targets"]]; a key that may be absent is an [option]. *)
Record Targets : Type :=
  { t_wpm : option (list num);
    t_maxFillersPerMin : option num }.

Record Persona : Type :=
  { p_id : string;
    p_name : string;
    p_description : string;
    p_targets : option Targets }.

(** The empty [dict] read as targets. *)
Definition no_targets : Targets :=
  {| t_wpm := None; t_maxFillersPerMin := None |}.

Record Dimensions : Type :=
  { pace : Q; clarity : Q; confidence : Q; fillerControl : Q }.

Record PersonaScore : Type :=
  { overall : Q; dimensions : Dimensions }.

(** [dims.values()], in insertion order. *)
Definition values (dims : Dimensions) : list Q :=
  [pace dims; clarity dims; confidence dims; fillerControl dims].

(** [persona.get("targets", {}) if persona else {}]; [persona] is [None]
    for a falsy argument ([None] or the empty [dict]). *)
Definition targets_of (persona : option Persona) : Targets :=
  match persona with
  | Some p => default no_targets (p_targets p)
  | None => no_targets
  end.

Definition score_against_persona (metrics : gmap string num)
  (persona : option Persona) : PersonaScore :=
  let wpm := float (default (Float 0) (metrics !! "wpm")) in
  let fillers_per_min :=
    float (default (Float 0) (metrics !! "fillersPerMin")) in
  let targets := targets_of persona in
  let target_wpm := default [Int 0; Int 0] (t_wpm targets) in
  let max_fillers := float (default (Int 0) (t_maxFillersPerMin targets)) in
  let pace_score := _score_pace wpm target_wpm in
  let filler_score := _score_filler_control fillers_per_min max_fillers in
  let clarity_score := 0.9%Q in
  let confidence_score := filler_score in
  let dims :=
    {| pace := round pace_score 3;
       clarity := round clarity_score 3;
       confidence := round confidence_score 3;
       fillerControl := round filler_score 3 |} in
  let overall :=
    (sum (values dims) / inject_Z (Z.of_nat (length (values dims))))%Q in
  {| overall := round overall 3; dimensions := dims |}.

End Coach.

(** ** The pace score in the words of the specification

    The specification describes the pace score through the distance from
    [wpm] to the nearest bound of the target range; [pace_claim] is that
    description, to be compared with [Coach._score_pace]. *)

Module PaceSpec.
Import Py Coach.

Definition invalid_range (target_range : list num) : Prop :=
  length target_range <> 2%nat.

Definition nearest_bound_distance (wpm low high : Q) : Q :=
  Qmin (Qabs (wpm - low)) (Qabs (wpm - high)).

Definition pace_claim (wpm : Q) (target_range : list num) : Prop :=
  (invalid_range target_range \/ (wpm <= 0)%Q ->
   _score_pace wpm target_range = 0.2%Q) /\
  (forall a b : num, target_range = [a; b] -> (0 < wpm)%Q ->
     let low := float a in
     let high := float b in
     ((low <= wpm)%Q /\ (wpm <= high)%Q ->
      _score_pace wpm target_range = 0.95%Q) /\
     (~ ((low <= wpm)%Q /\ (wpm <= high)%Q) ->
      let diff :=
        (nearest_bound_distance wpm low high / Qmax (high - low) 1)%Q in
      ((diff <= 0.15)%Q -> _score_pace wpm target_range = 0.8%Q) /\
      ((0.15 < diff)%Q /\ (diff <= 0.5)%Q ->
       _score_pace wpm target_range = 0.5%Q) /\
      ((0.5 < diff)%Q -> _score_pace wpm target_range = 0.2%Q))).

(** A range whose lower bound does not exceed its upper bound. *)
Definition ordered (target_range : list num) : Prop :=
  forall a b : num, target_range = [a; b] -> (float a <= float b)%Q.

(** The normalised distance as [_score_pace] computes it: measured from
    [low] when [wpm < low], from [high] otherwise. *)
Definition code_diff (wpm low high : Q) : Q :=
  if ltb wpm low then ((low - wpm) / max (high - low) 1)%Q
  else ((wpm - high) / max (high - low) 1)%Q.

End PaceSpec.

(** ** Positions of a text, for statements about matches *)

Module Pos.

(** [reaches prev s prev' s']: starting at the position with [prev] before
    it and [s] after it, moving right leads to the position with [prev']
    before it and [s'] after it. *)
Inductive reaches : option ascii -> string -> option ascii -> string -> Prop :=
| reaches_here (prev : option ascii) (s : string) : reaches prev s prev s
| reaches_next (prev : option ascii) (d : ascii) (s : string)
    (prev' : option ascii) (s' : string) :
    reaches (Some d) s prev' s' -> reaches prev (String d s) prev' s'.

(** The character before the position that follows the text [m], itself
    preceded by [prev]. *)
Fixpoint last_before (prev : option ascii) (m : string) : option ascii :=
  match m with
  | EmptyString => prev
  | String d m' => last_before (Some d) m'
  end.

(** Every character of [s] satisfies [P]. *)
Fixpoint all_chars (P : ascii -> bool) (s : string) : bool :=
  match s with
  | EmptyString => true
  | String c s' => P c && all_chars P s'
  end.

Definition not_space (c : ascii) : bool := negb (Chars.is_space c).

End Pos.

(** ** The end-to-end example in the words of the specification *)

Module MetricsSpec.
Import Py.

(** The metrics [dict] holds exactly these four values. *)
Definition metrics_are (m : gmap string num)
  (wpm : Q) (total_words total_fillers : Z) (fillers_per_min : Q) : Prop :=
  exists w f : Q,
    m !! "wpm" = Some (Float w) /\ (w == wpm)%Q /\
    m !! "totalWords" = Some (Int total_words) /\
    m !! "totalFillers" = Some (Int total_fillers) /\
    m !! "fillersPerMin" = Some (Float f) /\ (f == fillers_per_min)%Q.

End MetricsSpec.

(** ** Strings, continued: [strip] and [join] *)

Module StrOps.

(** [s.lstrip()] *)
Fixpoint lstrip (s : string) : string :=
  match s with
  | EmptyString => EmptyString
  | String c s' => if Chars.is_space c then lstrip s' else s
  end.

(** [s.rstrip()] *)
Fixpoint rstrip (s : string) : string :=
  match s with
  | EmptyString => EmptyString
  | String c s' =>
      match rstrip s' with
      | EmptyString =>
          if Chars.is_space c then EmptyString else String c EmptyString
      | String d r => String c (String d r)
      end
  end.

(** [s.strip()] *)
Definition strip (s : string) : string := rstrip (lstrip s).

(** [sep.join(parts)] *)
Fixpoint join (sep : string) (parts : list string) : string :=
  match parts with
  | [] => EmptyString
  | p :: rest =>
      match rest with
      | [] => p
      | _ :: _ => (p ++ sep ++ join sep rest)%string
      end
  end.

End StrOps.

(** ** [re.split] on a repeated character class

    [re.split] with a pattern [[...]+] cuts the text at every maximal run
    of characters of the class and returns the pieces between the runs,
    the empty pieces at both ends included. *)

Module ReSplit.

(** [cur] holds the piece being read, most recent character first;
    [in_run] tells that the last character read belonged to a run. *)
Fixpoint split_from (sep : ascii -> bool) (cur : list ascii) (in_run : bool)
  (s : string) : list string :=
  match s with
  | EmptyString => [string_of_list_ascii (rev cur)]
  | String c s' =>
      if sep c then
        if in_run then split_from sep [] true s'
        else string_of_list_ascii (rev cur) :: split_from sep [] true s'
      else split_from sep (c :: cur) false s'
  end.

Definition split (sep : ascii -> bool) (text : string) : list string :=
  split_from sep [] false text.

End ReSplit.

(** ** [backend/agents/metrics.py]: [split_sentences] *)

Module Sentences.

(** The class [[\.\?!]] *)
Definition is_terminator (c : ascii) : bool :=
  Ascii.eqb c "." || Ascii.eqb c "?" || Ascii.eqb c "!".

Definition split_sentences (transcript : string) : list string :=
  if Str.is_empty transcript then []
  else
    let parts := ReSplit.split is_terminator transcript in
    let sentences :=
      map StrOps.strip
        (List.filter (fun p => negb (Str.is_empty (StrOps.strip p))) parts) in
    sentences.

End Sentences.

(** ** [backend/agents/persona_profiles.py] *)

Module Profiles.
Import Py Coach.

(** The catalog, in insertion order. *)
Definition PERSONAS : list (string * Persona) :=
  [ ("ted",
     {| p_id := "ted";
        p_name := "TED Speaker";
        p_description := "Inspiring, story-driven, calm but energetic.";
        p_targets :=
          Some {| t_wpm := Some [Int 140; Int 170];
                  t_maxFillersPerMin := Some (Int 3) |} |});
    ("leader",
     {| p_id := "leader";
        p_name := "Confident Leader";
        p_description := "Authoritative, concise, decisive.";
        p_targets :=
          Some {| t_wpm := Some [Int 130; Int 160];
                  t_maxFillersPerMin := Some (Int 2) |} |});
    ("teacher",
     {| p_id := "teacher";
        p_name := "Engaging Teacher";
        p_description := "Clear, patient, explanatory with measured pacing.";
        p_targets :=
          Some {| t_wpm := Some [Int 110; Int 140];
                  t_maxFillersPerMin := Some (Int 2) |} |}) ].

(** [d.get(key)] on a [dict] kept in insertion order. *)
Fixpoint dict_get (key : string) (d : list (string * Persona))
  : option Persona :=
  match d with
  | [] => None
  | (k, v) :: d' => if String.eqb key k then Some v else dict_get key d'
  end.

(** [list(PERSONAS.values())] *)
Definition get_personas : list Persona := map snd PERSONAS.

Definition get_persona (persona_id : string) : option Persona :=
  dict_get persona_id PERSONAS.

End Profiles.

(** ** [backend/agents/tts_murf.py]

    The environment and the HTTP service are parameters: [MURF_API_KEY] is
    the variable read at import ([None] when it is not set), [post] the
    call [requests.post] on a URL, a JSON payload and headers, which
    returns a response or raises ([None]).  The body of a response is read
    as a [dict] of strings; [None] stands for a body [response.json()]
    rejects.  A body that holds a value other than a string under
    "audioFile" or "audioUrl" is outside the model. *)

Module Tts.
Import Coach.

Definition VOICE_MAP : gmap string string :=
  <["ted" := "en-US-natalie"]>
    (<["leader" := "en-US-marcus"]>
       (<["teacher" := "en-UK-hazel"]>
          (<["default" := "en-US-natalie"]> ∅))).

Record http_response : Type :=
  { status_code : Z;
    text : string;
    json : option (gmap string string) }.

(** The exceptions that leave [generate_tts_with_murf]. *)
Inductive tts_error : Type :=
| NoApiKey
| RequestRaised
| ApiError (status : Z) (body : string)
| BodyRejected
| NoAudioUrl.

(** Truthiness of an optional [str]. *)
Definition truthy (v : option string) : bool :=
  match v with
  | Some s => negb (Str.is_empty s)
  | None => false
  end.

(** [a or b] *)
Definition py_or (a b : option string) : option string :=
  if truthy a then a else b.

Definition MURF_URL : string := "https://api.murf.ai/v1/speech/generate".

Definition generate_tts_with_murf
  (MURF_API_KEY : option string)
  (post : string -> gmap string string -> gmap string string
          -> option http_response)
  (coaching_text : string) (persona : option Persona)
  : string + tts_error :=
  match MURF_API_KEY with
  | None => inr NoApiKey
  | Some api_key =>
      if Str.is_empty api_key then inr NoApiKey
      else
        let persona_id :=
          match persona with
          | Some p => p_id p
          | None => "default"
          end in
        let voice_id :=
          default (VOICE_MAP !!! "default") (VOICE_MAP !! persona_id) in
        let payload : gmap string string :=
          <["voiceId" := voice_id]>
            (<["text" := coaching_text]> (<["format" := "mp3"]> ∅)) in
        let headers : gmap string string :=
          <["Content-Type" := "application/json"]>
            (<["api-key" := api_key]> ∅) in
        match post MURF_URL payload headers with
        | None => inr RequestRaised
        | Some response =>
            if negb (status_code response =? 200)%Z
            then inr (ApiError (status_code response) (text response))
            else
              match json response with
              | None => inr BodyRejected
              | Some data =>
                  let audio_url :=
                    py_or (data !! "audioFile") (data !! "audioUrl") in
                  match audio_url with
                  | Some url =>
                      if Str.is_empty url then inr NoAudioUrl else inl url
                  | None => inr NoAudioUrl
                  end
              end
        end
  end.

End Tts.

(** ** [backend/main.py]

    The coaching [dict] comes from the language model (or its fallback)
    and the attempt id from [uuid.uuid4()]: both are arguments here.  The
    cache [attempt_cache] is threaded through the calls.  Writing the
    session log never raises and is left out. *)

Module Api.
Import Py Coach Metrics.

Local Unset Elimination Schemes.

(** A value decoded from JSON. *)
Inductive json : Type :=
| JNull
| JBool (b : bool)
| JNum (q : Q)
| JStr (s : string)
| JList (items : list json)
| JDict (entries : list (string * json)).

Local Set Elimination Schemes.

Record AnalyzeSpeechRequest : Type :=
  { personaId : string; transcript : string; durationSeconds : Q }.

Record coaching_payload : Type :=
  { c_summary : json;
    c_tips : json;
    c_exercise : json;
    c_personaScores10 : json }.

Record analyze_payload : Type :=
  { r_metrics : gmap string num;
    r_personaScore : PersonaScore;
    r_coaching : coaching_payload;
    r_highlights : list highlight;
    r_perSentenceEmotions : json;
    r_attemptId : string;
    r_needsConfirmation : bool;
    r_coachingTextForTTS : string }.

(** How a request ends: a payload, an [HTTPException], or a [TypeError]
    that nothing catches. *)
Inductive outcome : Type :=
| Ok (payload : analyze_payload)
| HttpError (status : Z) (detail : string)
| TypeError.

(** [" ".join(items)]: every item must be a [str]. *)
Fixpoint strings_of (items : list json) : option (list string) :=
  match items with
  | [] => Some []
  | JStr s :: items' => option_map (cons s) (strings_of items')
  | _ :: _ => None
  end.

Definition analyze_speech (body : AnalyzeSpeechRequest)
  (coaching : gmap string json) (attempt_id : string)
  (attempt_cache : gmap string (gmap string string))
  : outcome * gmap string (gmap string string) :=
  match Profiles.get_persona (personaId body) with
  | None => (HttpError 400 "Unknown personaId", attempt_cache)
  | Some persona =>
      let metrics := compute_metrics (transcript body) (durationSeconds body) in
      let persona_score := score_against_persona metrics (Some persona) in
      let highlights := compute_highlights (transcript body) None in
      let tips_joined :=
        match coaching !! "tips" with
        | Some (JList items) =>
            option_map (StrOps.join " ") (strings_of items)
        | _ => Some EmptyString
        end in
      match tips_joined, default (JStr "") (coaching !! "summary") with
      | Some tips_joined, JStr summary =>
          let coaching_text_for_tts :=
            StrOps.strip
              (summary ++ (if Str.is_empty tips_joined then ""
                           else " - " ++ tips_joined))%string in
          let attempt_cache :=
            <[attempt_id :=
                <["personaId" := personaId body]>
                  (<["coachingText" := coaching_text_for_tts]> ∅)]>
              attempt_cache in
          (Ok {| r_metrics := metrics;
                 r_personaScore := persona_score;
                 r_coaching :=
                   {| c_summary := default (JStr "") (coaching !! "summary");
                      c_tips := default (JList []) (coaching !! "tips");
                      c_exercise := default (JStr "") (coaching !! "exercise");
                      c_personaScores10 :=
                        default (JDict []) (coaching !! "personaScores10") |};
                 r_highlights := highlights;
                 r_perSentenceEmotions :=
                   default (JList []) (coaching !! "perSentenceEmotions");
                 r_attemptId := attempt_id;
                 r_needsConfirmation := true;
                 r_coachingTextForTTS := coaching_text_for_tts |},
           attempt_cache)
      | _, _ => (TypeError, attempt_cache)
      end
  end.

Record ConfirmFeedbackRequest : Type :=
  { cf_attemptId : string; cf_personaId : string }.

Record ConfirmFeedbackResponse : Type :=
  { audioUrl : option string; fallbackText : option string }.

Definition confirm_feedback
  (MURF_API_KEY : option string)
  (post : string -> gmap string string -> gmap string string
          -> option Tts.http_response)
  (body : ConfirmFeedbackRequest)
  (attempt_cache : gmap string (gmap string string))
  : ConfirmFeedbackResponse :=
  match attempt_cache !! cf_attemptId body with
  | None =>
      {| audioUrl := None;
         fallbackText := Some "No coaching text found for this attemptId." |}
  | Some data =>
      let coaching_text := default "" (data !! "coachingText") in
      if Str.is_empty coaching_text then
        {| audioUrl := None;
           fallbackText :=
             Some "No coaching text available for this attemptId." |}
      else
        let audio_url :=
          match Tts.generate_tts_with_murf MURF_API_KEY post coaching_text None
          with
          | inl url => Some url
          | inr _ => None
          end in
        if Tts.truthy audio_url
        then {| audioUrl := audio_url; fallbackText := None |}
        else {| audioUrl := None; fallbackText := Some coaching_text |}
  end.

End Api.

(** ** Rounding to decimal places, as a relation

    [Py.round] rounds the exact value and sends a tie to the even
    neighbour.  The code rounds a binary64 value, so where the exact
    value is a decimal tie it may return either neighbour: the best
    overall score, whose exact mean is 0.9525, comes out as 0.953.
    Statements about rounded results therefore use [rounded], which
    leaves the direction of a tie open. *)

Module RoundSpec.

(** [rounded ndigits x r]: [r] is a whole number of units of
    [10 ^ -ndigits], at most half a unit away from [x]. *)
Definition rounded (ndigits : Z) (x r : Q) : Prop :=
  (exists k : Z, (r * 10 ^ ndigits == inject_Z k)%Q) /\
  (Qabs (r - x) <= (1 # 2) / 10 ^ ndigits)%Q.

End RoundSpec.

(** ** The tokens of the word pattern, without the matcher

    [re.findall(r"\b[\w'-]+\b", text)] reads the text from left to
    right; at each position it takes the longest run of [[\w'-]]
    characters that starts and ends at a word boundary, or, where there
    is none, moves one character on.  [words_from] says this with no
    reference to [Re.match_here] and [Re.scan]. *)

Module TokenSpec.

(** [m] is a run of [[\w'-]] characters between two word boundaries at
    the position with [prev] before it and [s] after it. *)
Definition word_at (prev : option ascii) (s m : string) : Prop :=
  m <> EmptyString /\
  Pos.all_chars Chars.is_token_char m = true /\
  Re.at_boundary prev s = true /\
  exists rest : string,
    s = (m ++ rest)%string /\
    Re.at_boundary (Pos.last_before prev m) rest = true.

(** The greedy choice: no run at the position is longer. *)
Definition longest_word_at (prev : option ascii) (s m : string) : Prop :=
  word_at prev s m /\
  forall m' : string,
    word_at prev s m' -> (String.length m' <= String.length m)%nat.

Inductive words_from : option ascii -> string -> list string -> Prop :=
| words_end (prev : option ascii) : words_from prev EmptyString []
| words_skip (prev : option ascii) (d : ascii) (s : string)
    (tokens : list string) :
    (forall m : string, ~ word_at prev (String d s) m) ->
    words_from (Some d) s tokens ->
    words_from prev (String d s) tokens
| words_take (prev : option ascii) (s m rest : string)
    (tokens : list string) :
    longest_word_at prev s m ->
    s = (m ++ rest)%string ->
    words_from (Pos.last_before prev m) rest tokens ->
    words_from prev s (m :: tokens).

End TokenSpec.

(** * Properties *)

(** ** Comparisons, [max] and [round] on exact rationals *)

Module PyFacts.
Import Py.

Lemma leb_true (x y : Q) : leb x y = true <-> (x <= y)%Q.
Proof. apply Qle_bool_iff. Qed.

Lemma leb_false (x y : Q) : leb x y = false <-> (y < x)%Q.
Proof.
  unfold leb. rewrite <- not_true_iff_false, Qle_bool_iff.
  split; [apply Qnot_le_lt | apply Qlt_not_le].
Qed.

Lemma ltb_true (x y : Q) : ltb x y = true <-> (x < y)%Q.
Proof. unfold ltb. rewrite negb_true_iff. apply leb_false. Qed.

Lemma ltb_false (x y : Q) : ltb x y = false <-> (y <= x)%Q.
Proof. unfold ltb. rewrite negb_false_iff. apply leb_true. Qed.

(** Turn every comparison of the code met in the goal into a case split
    with the matching order fact in the context. *)
Ltac py_case :=
  match goal with
  | |- context [leb ?x ?y] =>
      let E := fresh "E" in
      destruct (leb x y) eqn:E;
      [apply leb_true in E | apply leb_false in E]
  | |- context [ltb ?x ?y] =>
      let E := fresh "E" in
      destruct (ltb x y) eqn:E;
      [apply ltb_true in E | apply ltb_false in E]
  end.

Lemma max_Qmax (a b : Q) : (max a b == Qmax a b)%Q.
Proof.
  unfold max. py_case.
  - symmetry. apply Q.max_r. lra.
  - symmetry. apply Q.max_l. exact E.
Qed.

Lemma max_lower_l (a b : Q) : (a <= max a b)%Q.
Proof. unfold max. py_case; lra. Qed.

Lemma max_lower_r (a b : Q) : (b <= max a b)%Q.
Proof. unfold max. py_case; lra. Qed.

Lemma max_cases (a b : Q) : max a b = a \/ max a b = b.
Proof. unfold max. destruct (ltb a b); auto. Qed.

(** Rounding never crosses an integer. *)
Lemma round_half_even_lower (k : Z) (x : Q) :
  (inject_Z k <= x)%Q -> (k <= round_half_even x)%Z.
Proof.
  intros Hk. assert (k <= Qfloor x)%Z as Hf.
  { rewrite <- (Qfloor_Z k). apply Qfloor_resp_le. exact Hk. }
  unfold round_half_even.
  destruct (ltb _ _); [lia|].
  destruct (ltb _ _); [lia|].
  destruct (Z.even _); lia.
Qed.

Lemma round_half_even_upper (k : Z) (x : Q) :
  (x <= inject_Z k)%Q -> (round_half_even x <= k)%Z.
Proof.
  intros Hk.
  assert (Qfloor x <= k)%Z as Hf.
  { rewrite <- (Qfloor_Z k). apply Qfloor_resp_le. exact Hk. }
  pose proof (Qfloor_le x) as Hlo.
  unfold round_half_even.
  py_case; [lia|].
  assert (Qfloor x < k)%Z as Hlt.
  { destruct (Z.eq_dec (Qfloor x) k) as [Heq|]; [|lia].
    exfalso. rewrite Heq in E. lra. }
  destruct (ltb _ _); [lia|]. destruct (Z.even _); lia.
Qed.

Lemma round_half_even_Z (k : Z) : round_half_even (inject_Z k) = k.
Proof.
  apply Z.le_antisymm.
  - apply round_half_even_upper. lra.
  - apply round_half_even_lower. lra.
Qed.

Lemma pow10_3 : (10 ^ 3 = 1000)%Q.
Proof. reflexivity. Qed.

Lemma Qdiv_1000 (x : Q) : (x / 1000 == x * (1 # 1000))%Q.
Proof. reflexivity. Qed.

Lemma round3_scaled (x : Q) :
  (round x 3 * 1000 == inject_Z (round_half_even (x * 1000)))%Q.
Proof. unfold round. rewrite pow10_3, Qdiv_1000. lra. Qed.

Lemma round3_bounds (lo hi : Z) (x : Q) :
  (inject_Z lo <= x * 1000)%Q -> (x * 1000 <= inject_Z hi)%Q ->
  (inject_Z lo <= round x 3 * 1000)%Q /\ (round x 3 * 1000 <= inject_Z hi)%Q.
Proof.
  intros Hlo Hhi. rewrite round3_scaled.
  split; rewrite <- Zle_Qle.
  - apply round_half_even_lower, Hlo.
  - apply round_half_even_upper, Hhi.
Qed.

Lemma round3_fixed (k : Z) (x : Q) :
  (x * 1000 == inject_Z k)%Q -> (round x 3 * 1000 == inject_Z k)%Q.
Proof.
  intros H. destruct (round3_bounds k k x); lra.
Qed.

End PyFacts.

(** ** The pace score *)

Module PaceFacts.
Import Py PyFacts Coach PaceSpec.

(** Without two bounds, or without a positive rate, the score is 0.2. *)
Lemma score_pace_invalid (wpm : Q) (target_range : list num) :
  invalid_range target_range \/ (wpm <= 0)%Q ->
  _score_pace wpm target_range = 0.2%Q.
Proof.
  unfold _score_pace, invalid_range. intros [Hlen | Hwpm].
  - apply Nat.eqb_neq in Hlen. rewrite Hlen. cbn.
    rewrite !orb_true_r. reflexivity.
  - apply leb_true in Hwpm. rewrite Hwpm. reflexivity.
Qed.

(** Outside an ordered range the nearest bound is the one on the side of
    the rate. *)
Lemma nearest_below (wpm low high : Q) :
  (wpm < low)%Q -> (low <= high)%Q ->
  (nearest_bound_distance wpm low high == low - wpm)%Q.
Proof.
  intros H1 H2. unfold nearest_bound_distance.
  rewrite (Qabs_neg (wpm - low)) by lra.
  rewrite (Qabs_neg (wpm - high)) by lra.
  rewrite Q.min_l by lra. lra.
Qed.

Lemma nearest_above (wpm low high : Q) :
  (high < wpm)%Q -> (low <= high)%Q ->
  (nearest_bound_distance wpm low high == wpm - high)%Q.
Proof.
  intros H1 H2. unfold nearest_bound_distance.
  rewrite (Qabs_pos (wpm - low)) by lra.
  rewrite (Qabs_pos (wpm - high)) by lra.
  rewrite Q.min_r by lra. lra.
Qed.

(** The code on a range of two bounds. *)
Lemma score_pace_pair (wpm : Q) (a b : num) :
  _score_pace wpm [a; b] =
    if leb wpm 0 then 0.2%Q
    else if leb (float a) wpm && leb wpm (float b) then 0.95%Q
    else if leb (code_diff wpm (float a) (float b)) 0.15 then 0.8%Q
    else if leb (code_diff wpm (float a) (float b)) 0.5 then 0.5%Q
    else 0.2%Q.
Proof. unfold _score_pace. cbn. rewrite !orb_false_r. reflexivity. Qed.

Lemma code_diff_nearest (wpm low high : Q) :
  (low <= high)%Q -> ~ ((low <= wpm)%Q /\ (wpm <= high)%Q) ->
  (code_diff wpm low high
   == nearest_bound_distance wpm low high / Qmax (high - low) 1)%Q.
Proof.
  intros Hord Hout. unfold code_diff.
  py_case; rewrite max_Qmax.
  - rewrite nearest_below by assumption. reflexivity.
  - rewrite nearest_above; [reflexivity | | assumption].
    apply Qnot_le_lt. intros Hle. apply Hout. split; assumption.
Qed.

(** C1, as amended: for every wpm and every range whose lower bound does
    not exceed its upper bound, the pace score is the step function of
    the specification: 0.2 for an invalid range (empty, or not of arity
    2) or [wpm <= 0]; 0.95 inside the range; otherwise, with [diff] the
    distance from wpm to the nearest bound divided by
    [max(high - low, 1.0)], 0.8 when [diff <= 0.15], 0.5 when
    [0.15 < diff <= 0.5] and 0.2 when [diff > 0.5]. *)
Theorem score_pace_step_ordered (wpm : Q) (target_range : list num) :
  ordered target_range -> pace_claim wpm target_range.
Proof.
  intros Hord. split; [apply score_pace_invalid|].
  intros a b -> Hpos low high. specialize (Hord a b eq_refl).
  fold low high in Hord.
  rewrite score_pace_pair. fold low high.
  apply leb_false in Hpos. rewrite Hpos.
  split.
  - intros [H1 H2]. apply leb_true in H1, H2. rewrite H1, H2. reflexivity.
  - intros Hout diff.
    assert (leb low wpm && leb wpm high = false) as ->.
    { apply not_true_iff_false. rewrite andb_true_iff, !leb_true. exact Hout. }
    pose proof (code_diff_nearest wpm low high Hord Hout) as Hd.
    fold diff in Hd.
    repeat split.
    + intros H. rewrite <- Hd in H. apply leb_true in H. rewrite H. reflexivity.
    + intros [H1 H2]. rewrite <- Hd in H1, H2.
      apply leb_false in H1. apply leb_true in H2. rewrite H1, H2. reflexivity.
    + intros H. rewrite <- Hd in H.
      assert (0.15 < code_diff wpm low high)%Q as H' by lra.
      apply leb_false in H, H'. rewrite H, H'. reflexivity.
Qed.

(** The theorem at 135 words per minute against the range [140, 170]:
    the rate is 5 below a range 30 wide, [diff = 1/6], and the score is
    0.5. *)
Lemma score_pace_step_ordered_witness :
  ordered [Int 140; Int 170] /\ pace_claim 135 [Int 140; Int 170] /\
  _score_pace 135 [Int 140; Int 170] = 0.5%Q.
Proof.
  assert (ordered [Int 140; Int 170]) as H.
  { intros a b [= <- <-]. vm_compute. discriminate. }
  split; [exact H|].
  split; [apply (score_pace_step_ordered 135 [Int 140; Int 170] H)|].
  reflexivity.
Defined.

(** The worked values of the specification for the range [140, 170]. *)
Example score_pace_examples :
  _score_pace 150 [Int 140; Int 170] = 0.95%Q /\
  _score_pace 100 [Int 140; Int 170] = 0.2%Q /\
  _score_pace 135 [Int 140; Int 170] = 0.5%Q.
Proof. split; [reflexivity|]. split; reflexivity. Qed.

(** C1, as stated for every range, fails on the inverted range [2, 1] at
    1.125 words per minute: the nearest bound, 1, is 0.125 away, which
    the step function scores 0.8, but the code measures the distance from
    the lower bound, 0.875, and returns 0.2. *)
Lemma score_pace_inverted_range : ~ pace_claim (9 # 8) [Int 2; Int 1].
Proof.
  intros [_ H].
  destruct (H (Int 2) (Int 1) eq_refl) as [_ Hout]; [reflexivity|].
  assert (~ ((float (Int 2) <= 9 # 8)%Q /\ (9 # 8 <= float (Int 1))%Q)) as Hno.
  { intros [Hlow _]. vm_compute in Hlow. apply Hlow. reflexivity. }
  destruct (Hout Hno) as [H8 _].
  assert (_score_pace (9 # 8) [Int 2; Int 1] = 0.8%Q) as Habs.
  { apply H8. vm_compute. discriminate. }
  vm_compute in Habs. discriminate Habs.
Qed.

End PaceFacts.

(** ** The filler-control score *)

Module FillerFacts.
Import Py PyFacts Coach.

Lemma half (x : Q) : (x / 2 == x * (1 # 2))%Q.
Proof. reflexivity. Qed.

(** The slope [(0.98 - 0.2) / 2.0] of the code is the specification's
    [0.78 / 2.0]. *)
Lemma slope : ((0.98 - 0.2) / 2 == 0.78 / 2)%Q.
Proof. reflexivity. Qed.

(** The ratio of a rate above a positive allowance exceeds one. *)
Lemma ratio_above_one (fillers_per_min max_allowed : Q) :
  (0 < max_allowed)%Q -> (max_allowed < fillers_per_min)%Q ->
  (1 < fillers_per_min / max_allowed)%Q.
Proof.
  intros Hm Hf. apply Qlt_shift_div_l; [exact Hm | lra].
Qed.

Lemma score_filler_control_over (fillers_per_min max_allowed : Q) :
  (0 < max_allowed)%Q -> (max_allowed < fillers_per_min)%Q ->
  _score_filler_control fillers_per_min max_allowed =
    let ratio := (fillers_per_min / max_allowed)%Q in
    if leb 3 ratio then 0.2%Q
    else max 0.2 (0.98 - (ratio - 1) * ((0.98 - 0.2) / 2))%Q.
Proof.
  intros Hm Hf. unfold _score_filler_control.
  apply leb_false in Hm, Hf. rewrite Hm, Hf. reflexivity.
Qed.

(** Between ratio 1 and ratio 3 the line stays above the floor. *)
Lemma line_above_floor (ratio : Q) :
  (ratio < 3)%Q -> (0.2 < 0.98 - (ratio - 1) * (0.78 / 2))%Q.
Proof. intros H. rewrite half. lra. Qed.

(** C2: the filler-control score is 0.5 for a non-positive allowance,
    0.98 for a rate within the allowance, and otherwise, with
    [ratio = fillers_per_min / max_allowed], 0.2 from ratio 3 on and
    [0.98 - (ratio - 1) * (0.78 / 2)] floored at 0.2 for a ratio between
    1 and 3 (where the floor is never reached); this for every rate and
    every allowance. *)
Theorem score_filler_control_piecewise (fillers_per_min max_allowed : Q) :
  ((max_allowed <= 0)%Q ->
   _score_filler_control fillers_per_min max_allowed = 0.5%Q) /\
  ((0 < max_allowed)%Q -> (fillers_per_min <= max_allowed)%Q ->
   _score_filler_control fillers_per_min max_allowed = 0.98%Q) /\
  ((0 < max_allowed)%Q -> (max_allowed < fillers_per_min)%Q ->
   let ratio := (fillers_per_min / max_allowed)%Q in
   (1 < ratio)%Q /\
   ((3 <= ratio)%Q ->
    _score_filler_control fillers_per_min max_allowed = 0.2%Q) /\
   ((ratio < 3)%Q ->
    (_score_filler_control fillers_per_min max_allowed
     == Qmax 0.2 (0.98 - (ratio - 1) * (0.78 / 2)))%Q /\
    (_score_filler_control fillers_per_min max_allowed
     == 0.98 - (ratio - 1) * (0.78 / 2))%Q)).
Proof.
  split; [|split].
  - intros Hm. unfold _score_filler_control.
    apply leb_true in Hm. rewrite Hm. reflexivity.
  - intros Hm Hf. unfold _score_filler_control.
    apply leb_false in Hm. apply leb_true in Hf. rewrite Hm, Hf. reflexivity.
  - intros Hm Hf ratio.
    rewrite (score_filler_control_over _ _ Hm Hf). fold ratio. cbv zeta.
    split; [apply ratio_above_one; assumption|].
    split.
    + intros H3. apply leb_true in H3. rewrite H3. reflexivity.
    + intros H3. pose proof (line_above_floor ratio H3) as Hline.
      apply leb_false in H3. rewrite H3.
      rewrite max_Qmax, slope.
      split; [reflexivity|].
      apply Q.max_r. lra.
Qed.

(** The three worked values of the specification. *)
Example score_filler_control_examples :
  _score_filler_control 2 3 = 0.98%Q /\
  _score_filler_control 9 3 = 0.2%Q /\
  (_score_filler_control 6 3 == 0.59)%Q.
Proof. split; [reflexivity|]. split; reflexivity. Qed.

End FillerFacts.

(** ** [Py.round] rounds to the nearest *)

Module RoundFacts.
Import Py PyFacts RoundSpec.

(** The nearest integer is at most one half away. *)
Lemma round_half_even_near (x : Q) :
  (Qabs (inject_Z (round_half_even x) - x) <= 1 # 2)%Q.
Proof.
  pose proof (Qfloor_le x) as Hlo. pose proof (Qlt_floor x) as Hhi.
  rewrite inject_Z_plus in Hhi. change (inject_Z 1) with 1%Q in Hhi.
  apply Qabs_Qle_condition. unfold round_half_even.
  py_case.
  - split; lra.
  - py_case.
    + rewrite inject_Z_plus. change (inject_Z 1) with 1%Q. split; lra.
    + destruct (Z.even (Qfloor x)).
      * split; lra.
      * rewrite inject_Z_plus. change (inject_Z 1) with 1%Q. split; lra.
Qed.

Lemma round_rounded (x : Q) (ndigits : Z) : rounded ndigits x (round x ndigits).
Proof.
  pose proof (Qpower_0_lt 10 ndigits eq_refl) as Hpos.
  set (p := (10 ^ ndigits)%Q) in *.
  pose proof (round_half_even_near (x * p)) as Hnear.
  unfold rounded, round. fold p.
  set (k := round_half_even (x * p)) in *.
  assert (inject_Z k / p * p == inject_Z k)%Q as Hk by (field; lra).
  split; [exists k; exact Hk|].
  apply Qabs_Qle_condition in Hnear. apply Qabs_Qle_condition.
  assert ((1 # 2) / p * p == 1 # 2)%Q as Hhalf by (field; lra).
  assert (0 < (1 # 2) / p)%Q as Hh by (apply Qlt_shift_div_l; lra).
  set (r := (inject_Z k / p)%Q) in *. set (h := ((1 # 2) / p)%Q) in *.
  split.
  - apply Qnot_lt_le. intros Hlt.
    assert ((r - x) * p < - h * p)%Q by (apply Qmult_lt_compat_r; lra).
    lra.
  - apply Qnot_lt_le. intros Hlt.
    assert (h * p < (r - x) * p)%Q by (apply Qmult_lt_compat_r; lra).
    lra.
Qed.

(** [rounded] reads the value up to equality of rationals. *)
Lemma rounded_compat (ndigits : Z) (x y r : Q) :
  (x == y)%Q -> rounded ndigits x r -> rounded ndigits y r.
Proof.
  intros Hxy [Hk Hnear]. split; [exact Hk|].
  rewrite <- Hxy. exact Hnear.
Qed.

(** The relation leaves only a tie open: two roundings of one value are
    equal, or they are the two neighbours of a tie, one unit apart. *)
Lemma rounded_unique (ndigits : Z) (x r1 r2 : Q) :
  rounded ndigits x r1 -> rounded ndigits x r2 ->
  (r1 == r2)%Q \/ (Qabs (r1 - r2) == 1 / 10 ^ ndigits)%Q.
Proof.
  unfold rounded. intros [[k1 Hk1] H1] [[k2 Hk2] H2].
  pose proof (Qpower_0_lt 10 ndigits eq_refl) as Hpos.
  set (p := (10 ^ ndigits)%Q) in *.
  apply Qabs_Qle_condition in H1, H2.
  assert ((1 # 2) / p * p == 1 # 2)%Q as Hhalf by (field; lra).
  assert (1 / p * p == 1)%Q as Hone by (field; lra).
  set (h := ((1 # 2) / p)%Q) in *.
  assert (-1 <= inject_Z k1 - inject_Z k2)%Q as Hlo.
  { rewrite <- Hk1, <- Hk2. apply Qnot_lt_le. intros Hlt.
    assert ((r1 - r2) * p < -(2 * h) * p)%Q by lra.
    assert (r1 - r2 < -(2 * h))%Q by (apply Qmult_lt_r with p; lra). lra. }
  assert (inject_Z k1 - inject_Z k2 <= 1)%Q as Hhi.
  { rewrite <- Hk1, <- Hk2. apply Qnot_lt_le. intros Hlt.
    assert (2 * h * p < (r1 - r2) * p)%Q by lra.
    assert (2 * h < r1 - r2)%Q by (apply Qmult_lt_r with p; lra). lra. }
  assert (-1 <= k1 - k2 <= 1)%Z as Hk.
  { split; rewrite Zle_Qle; unfold Z.sub;
      rewrite inject_Z_plus, inject_Z_opp;
      [change (inject_Z (-1)) with (-1)%Q | change (inject_Z 1) with 1%Q];
      lra. }
  assert (k1 = k2 \/ k1 = k2 + 1 \/ k1 = k2 - 1)%Z as [-> | [-> | ->]] by lia.
  - left. apply Qmult_inj_r with p; lra.
  - right. rewrite inject_Z_plus in Hk1. change (inject_Z 1) with 1%Q in Hk1.
    rewrite Qabs_pos.
    + apply Qmult_inj_r with p; lra.
    + apply Qnot_lt_le. intros Hlt.
      assert ((r1 - r2) * p < 0 * p)%Q by (apply Qmult_lt_compat_r; lra).
      lra.
  - right. unfold Zminus in Hk1. rewrite inject_Z_plus, inject_Z_opp in Hk1.
    change (inject_Z 1) with 1%Q in Hk1.
    rewrite Qabs_neg.
    + apply Qmult_inj_r with p; lra.
    + apply Qnot_lt_le. intros Hlt.
      assert (0 * p < (r1 - r2) * p)%Q by (apply Qmult_lt_compat_r; lra).
      lra.
Qed.

End RoundFacts.

(** ** The persona score *)

Module ScoreFacts.
Import Py PyFacts Coach FillerFacts RoundSpec.

(** [round] reads its argument up to equality of rationals. *)
Lemma round_half_even_compat (x y : Q) :
  (x == y)%Q -> round_half_even x = round_half_even y.
Proof.
  intros H. unfold round_half_even, ltb, leb.
  rewrite (Qfloor_comp x y H).
  assert (x - inject_Z (Qfloor y) == y - inject_Z (Qfloor y))%Q as Hr
    by (rewrite H; reflexivity).
  rewrite (Qleb_comp _ _ (Qeq_refl (1 # 2)) _ _ Hr).
  rewrite (Qleb_comp _ _ Hr _ _ (Qeq_refl (1 # 2))).
  reflexivity.
Qed.

Lemma round_compat (x y : Q) (ndigits : Z) :
  (x == y)%Q -> round x ndigits = round y ndigits.
Proof.
  intros H. unfold round.
  rewrite (round_half_even_compat (x * 10 ^ ndigits) (y * 10 ^ ndigits));
    [reflexivity | rewrite H; reflexivity].
Qed.

(** A value rounded to three places is a whole number of thousandths. *)
Lemma round3_thousandths (x : Q) :
  exists k : Z, (round x 3 * 1000 == inject_Z k)%Q.
Proof. eexists. apply round3_scaled. Qed.

Lemma round3_unit_range (x : Q) :
  (0.2 <= x)%Q /\ (x <= 0.98)%Q ->
  (0.2 <= round x 3)%Q /\ (round x 3 <= 0.98)%Q.
Proof.
  intros [Hlo Hhi].
  destruct (round3_bounds 200 980 x) as [H1 H2].
  - change (inject_Z 200) with 200%Q. lra.
  - change (inject_Z 980) with 980%Q. lra.
  - change (inject_Z 200) with 200%Q in H1.
    change (inject_Z 980) with 980%Q in H2. split; lra.
Qed.

(** The pace score takes one of four values. *)
Lemma score_pace_values (wpm : Q) (target_range : list num) :
  _score_pace wpm target_range = 0.2%Q \/
  _score_pace wpm target_range = 0.5%Q \/
  _score_pace wpm target_range = 0.8%Q \/
  _score_pace wpm target_range = 0.95%Q.
Proof.
  unfold _score_pace.
  repeat match goal with
         | |- context [if ?c then _ else _] => destruct c
         end; auto.
Qed.

Lemma score_pace_range (wpm : Q) (target_range : list num) :
  (0.2 <= _score_pace wpm target_range)%Q /\
  (_score_pace wpm target_range <= 0.98)%Q.
Proof.
  destruct (score_pace_values wpm target_range) as [-> | [-> | [-> | ->]]];
    split; lra.
Qed.

Lemma score_filler_control_range (fillers_per_min max_allowed : Q) :
  (0.2 <= _score_filler_control fillers_per_min max_allowed)%Q /\
  (_score_filler_control fillers_per_min max_allowed <= 0.98)%Q.
Proof.
  destruct (Qlt_le_dec 0 max_allowed) as [Hm | Hm].
  - destruct (Qlt_le_dec max_allowed fillers_per_min) as [Hf | Hf].
    + rewrite (score_filler_control_over _ _ Hm Hf). cbv zeta.
      pose proof (ratio_above_one _ _ Hm Hf) as Hr.
      set (ratio := (fillers_per_min / max_allowed)%Q) in *.
      py_case; [split; lra|].
      split; [apply max_lower_l|].
      destruct (max_cases 0.2 (0.98 - (ratio - 1) * ((0.98 - 0.2) / 2))%Q)
        as [-> | ->]; [lra|].
      rewrite half. lra.
    + unfold _score_filler_control.
      apply leb_false in Hm. apply leb_true in Hf. rewrite Hm, Hf.
      split; lra.
  - unfold _score_filler_control. apply leb_true in Hm. rewrite Hm.
    split; lra.
Qed.

Lemma quarter (x : Q) : (x / 4 == x * (1 # 4))%Q.
Proof. reflexivity. Qed.

(** [sum(dims.values()) / len(dims)] is the arithmetic mean. *)
Lemma mean_of_values (dims : Dimensions) :
  (sum (values dims) / inject_Z (Z.of_nat (length (values dims)))
   == (pace dims + clarity dims + confidence dims + fillerControl dims) / 4)%Q.
Proof.
  unfold values, sum. cbn [fold_left length Z.of_nat].
  change (inject_Z (Z.of_nat 4)) with 4%Q.
  rewrite !quarter. lra.
Qed.

(** The fields of the result, read off the code. *)
Lemma score_against_persona_fields
  (metrics : gmap string num) (persona : option Persona) :
  let result := score_against_persona metrics persona in
  let dims := dimensions result in
  let wpm := float (default (Float 0) (metrics !! "wpm")) in
  let fillers_per_min :=
    float (default (Float 0) (metrics !! "fillersPerMin")) in
  let target_wpm := default [Int 0; Int 0] (t_wpm (targets_of persona)) in
  let max_fillers :=
    float (default (Int 0) (t_maxFillersPerMin (targets_of persona))) in
  clarity dims = round 0.9 3 /\
  confidence dims = fillerControl dims /\
  pace dims = round (_score_pace wpm target_wpm) 3 /\
  fillerControl dims =
    round (_score_filler_control fillers_per_min max_fillers) 3 /\
  overall result =
    round ((pace dims + clarity dims + confidence dims + fillerControl dims)
           / 4) 3.
Proof.
  cbv zeta. unfold score_against_persona.
  cbn [dimensions overall pace clarity confidence fillerControl].
  repeat split. apply round_compat, mean_of_values.
Qed.

(** The sub-score of the pace has at most two decimals, so rounding it
    to three places returns it. *)
Lemma round3_score_pace (wpm : Q) (target_range : list num) :
  (round (_score_pace wpm target_range) 3 == _score_pace wpm target_range)%Q.
Proof.
  destruct (score_pace_values wpm target_range) as [-> | [-> | [-> | ->]]];
    vm_compute; reflexivity.
Qed.

(** C3: for every metrics dict (of finite numbers) and every persona,
    clarity is the constant 0.9, confidence equals fillerControl, pace and
    fillerControl are the two sub-scores of the metrics' wpm and
    fillersPerMin (0.0 when the key is missing) against the persona's
    targets (the range [0, 0] and the allowance 0 when the persona, its
    targets or the key is missing), each dimension is its raw value
    rounded to three decimal places, and overall is the arithmetic mean
    of the four rounded dimensions, itself rounded to three places.
    Rounding is the relation [rounded]: a whole number of thousandths
    nearest to the value, either neighbour at a tie.  The three closing
    cases give the values for a speaker of the catalog inside the range
    with some fillers too many, for a missing persona, and for a speaker
    just above the range. *)
Theorem score_against_persona_dimensions :
  (forall (metrics : gmap string num) (persona : option Persona),
      let result := score_against_persona metrics persona in
      let dims := dimensions result in
      let wpm :=
        match metrics !! "wpm" with Some v => float v | None => 0%Q end in
      let fillers_per_min :=
        match metrics !! "fillersPerMin" with
        | Some v => float v
        | None => 0%Q
        end in
      let targets :=
        match persona with
        | Some p => p_targets p
        | None => None
        end in
      let target_wpm :=
        match targets with
        | Some t =>
            match t_wpm t with Some range => range | None => [Int 0; Int 0] end
        | None => [Int 0; Int 0]
        end in
      let max_fillers :=
        match targets with
        | Some t =>
            match t_maxFillersPerMin t with Some m => float m | None => 0%Q end
        | None => 0%Q
        end in
      let pace_score := _score_pace wpm target_wpm in
      let filler_score := _score_filler_control fillers_per_min max_fillers in
      (clarity dims == 0.9)%Q /\
      confidence dims = fillerControl dims /\
      (pace dims == pace_score)%Q /\
      rounded 3 pace_score (pace dims) /\
      rounded 3 0.9 (clarity dims) /\
      rounded 3 filler_score (confidence dims) /\
      rounded 3 filler_score (fillerControl dims) /\
      rounded 3
        ((pace dims + clarity dims + confidence dims + fillerControl dims) / 4)
        (overall result)) /\
  (let result :=
     score_against_persona
       (<["wpm" := Float 150]> (<["fillersPerMin" := Float 3.5]> ∅))
       (Profiles.get_persona "ted") in
   (pace (dimensions result) == 0.95)%Q /\
   (clarity (dimensions result) == 0.9)%Q /\
   (confidence (dimensions result) == 0.915)%Q /\
   (fillerControl (dimensions result) == 0.915)%Q /\
   (overall result == 0.92)%Q) /\
  (let result :=
     score_against_persona
       (<["wpm" := Float 120]> (<["fillersPerMin" := Float 1]> ∅)) None in
   (pace (dimensions result) == 0.2)%Q /\
   (clarity (dimensions result) == 0.9)%Q /\
   (confidence (dimensions result) == 0.5)%Q /\
   (fillerControl (dimensions result) == 0.5)%Q /\
   (overall result == 0.525)%Q) /\
  (let result :=
     score_against_persona
       (<["wpm" := Float 144]> (<["fillersPerMin" := Float 2]> ∅))
       (Profiles.get_persona "teacher") in
   (pace (dimensions result) == 0.8)%Q /\
   (clarity (dimensions result) == 0.9)%Q /\
   (confidence (dimensions result) == 0.98)%Q /\
   (fillerControl (dimensions result) == 0.98)%Q /\
   (overall result == 0.915)%Q).
Proof.
  split; [|vm_compute; repeat split; reflexivity].
  intros metrics persona. cbv zeta.
  destruct (score_against_persona_fields metrics persona)
    as (Hc & Hn & Hp & Hf & Ho).
  assert (float (default (Float 0) (metrics !! "wpm")) =
          match metrics !! "wpm" with Some v => float v | None => 0%Q end)
    as Hwpm by (destruct (metrics !! "wpm"); reflexivity).
  assert (float (default (Float 0) (metrics !! "fillersPerMin")) =
          match metrics !! "fillersPerMin" with
          | Some v => float v
          | None => 0%Q
          end)
    as Hfpm by (destruct (metrics !! "fillersPerMin"); reflexivity).
  assert (default [Int 0; Int 0] (t_wpm (targets_of persona)) =
          match
            match persona with Some p => p_targets p | None => None end
          with
          | Some t =>
              match t_wpm t with Some range => range | None => [Int 0; Int 0] end
          | None => [Int 0; Int 0]
          end) as Hrange.
  { destruct persona as [[i n d [[[r|] m]|]]|]; reflexivity. }
  assert (float (default (Int 0) (t_maxFillersPerMin (targets_of persona))) =
          match
            match persona with Some p => p_targets p | None => None end
          with
          | Some t =>
              match t_maxFillersPerMin t with
              | Some m => float m
              | None => 0%Q
              end
          | None => 0%Q
          end) as Hmax.
  { destruct persona as [[i n d [[r [m|]]|]]|]; reflexivity. }
  rewrite Hwpm, Hrange in Hp. rewrite Hfpm, Hmax in Hf.
  split; [rewrite Hc; reflexivity|].
  split; [exact Hn|].
  split; [rewrite Hp; apply round3_score_pace|].
  split; [rewrite Hp; apply RoundFacts.round_rounded|].
  split; [rewrite Hc; apply RoundFacts.round_rounded|].
  split; [rewrite Hn, Hf; apply RoundFacts.round_rounded|].
  split; [rewrite Hf; apply RoundFacts.round_rounded|].
  rewrite Ho. apply RoundFacts.round_rounded.
Qed.

(** C9: for every metrics dict and every persona, the four dimensions and
    the overall value all lie in the closed interval [0.2, 0.98]. *)
Theorem score_against_persona_range
  (metrics : gmap string num) (persona : option Persona) :
  let result := score_against_persona metrics persona in
  let dims := dimensions result in
  ((0.2 <= pace dims)%Q /\ (pace dims <= 0.98)%Q) /\
  ((0.2 <= clarity dims)%Q /\ (clarity dims <= 0.98)%Q) /\
  ((0.2 <= confidence dims)%Q /\ (confidence dims <= 0.98)%Q) /\
  ((0.2 <= fillerControl dims)%Q /\ (fillerControl dims <= 0.98)%Q) /\
  ((0.2 <= overall result)%Q /\ (overall result <= 0.98)%Q).
Proof.
  cbv zeta.
  destruct (score_against_persona_fields metrics persona)
    as (Hc & Hn & Hp & Hf & Ho).
  set (result := score_against_persona metrics persona) in *.
  set (dims := dimensions result) in *.
  assert ((0.2 <= pace dims)%Q /\ (pace dims <= 0.98)%Q) as HP.
  { rewrite Hp. apply round3_unit_range, score_pace_range. }
  assert ((0.2 <= fillerControl dims)%Q /\ (fillerControl dims <= 0.98)%Q)
    as HF.
  { rewrite Hf. apply round3_unit_range, score_filler_control_range. }
  assert ((0.2 <= clarity dims)%Q /\ (clarity dims <= 0.98)%Q) as HC.
  { rewrite Hc. apply round3_unit_range. split; lra. }
  assert ((0.2 <= confidence dims)%Q /\ (confidence dims <= 0.98)%Q) as HN.
  { rewrite Hn. exact HF. }
  repeat split; try tauto.
  all: rewrite Ho; apply round3_unit_range; rewrite quarter; lra.
Qed.

End ScoreFacts.

(** ** Characters and strings *)

Module TextFacts.
Import Pos.

Lemma lower_char_idem (c : ascii) :
  Chars.lower_char (Chars.lower_char c) = Chars.lower_char c.
Proof. destruct c as [[] [] [] [] [] [] [] []]; reflexivity. Qed.

(** Only the space is lowered to the space. *)
Lemma lower_char_space (c : ascii) :
  Chars.lower_char c = " "%char -> c = " "%char.
Proof.
  destruct c as [[] [] [] [] [] [] [] []]; vm_compute; intros H;
    first [reflexivity | discriminate H].
Qed.

Lemma lower_idem (s : string) : Str.lower (Str.lower s) = Str.lower s.
Proof.
  induction s as [|c s IH]; [reflexivity|].
  cbn [Str.lower]. rewrite lower_char_idem, IH. reflexivity.
Qed.

Lemma is_empty_lower (s : string) :
  Str.is_empty (Str.lower s) = Str.is_empty s.
Proof. destruct s; reflexivity. Qed.

Lemma all_chars_of_list (P : ascii -> bool) (l : list ascii) :
  all_chars P (string_of_list_ascii l) = forallb P l.
Proof.
  induction l as [|c l IH]; [reflexivity|].
  cbn [string_of_list_ascii all_chars forallb]. rewrite IH. reflexivity.
Qed.

Lemma forallb_rev (P : ascii -> bool) (l : list ascii) :
  forallb P (rev l) = forallb P l.
Proof.
  induction l as [|c l IH]; [reflexivity|].
  cbn [rev forallb]. rewrite forallb_app, IH. cbn [forallb].
  rewrite andb_true_r. apply andb_comm.
Qed.

(** The tokens of [split] hold no white space. *)
Lemma split_from_no_space (s : string) :
  forall (cur : list ascii) (w : string),
    forallb not_space cur = true ->
    In w (Str.split_from cur s) -> all_chars not_space w = true.
Proof.
  assert (forall cur rest w,
             forallb not_space cur = true ->
             (In w rest -> all_chars not_space w = true) ->
             In w (Str.flush cur rest) -> all_chars not_space w = true)
    as Hflush.
  { intros [|c cur] rest w Hcur Hrest; cbn [Str.flush]; [exact Hrest|].
    intros [<- | Hin]; [|exact (Hrest Hin)].
    rewrite all_chars_of_list, forallb_rev. exact Hcur. }
  induction s as [|c s IH]; intros cur w Hcur; cbn [Str.split_from].
  - apply Hflush; [exact Hcur | intros []].
  - destruct (Chars.is_space c) eqn:Hc.
    + apply Hflush; [exact Hcur|]. apply IH. reflexivity.
    + apply IH. cbn [forallb]. unfold not_space at 1. rewrite Hc. exact Hcur.
Qed.

Lemma split_no_space (s w : string) :
  In w (Str.split s) -> all_chars not_space w = true.
Proof. apply split_from_no_space. reflexivity. Qed.

(** A string lowered to a text that holds a space holds a space. *)
Lemma lower_keeps_space (w : string) :
  all_chars not_space w = true ->
  all_chars not_space (Str.lower w) = true.
Proof.
  induction w as [|c w IH]; [reflexivity|].
  cbn [all_chars Str.lower]. rewrite !andb_true_iff.
  intros [Hc Hw]. split; [|exact (IH Hw)].
  revert Hc. clear. destruct c as [[] [] [] [] [] [] [] []];
    vm_compute; intros H; first [reflexivity | discriminate H].
Qed.

End TextFacts.

(** ** Matching *)

Module ReFacts.
Import Pos.

(** A literal followed by [\b] matches exactly the literal, and only where
    a boundary follows it. *)
Lemma match_literal (lit : string) :
  forall (prev : option ascii) (s m : string),
    Re.match_here (Re.escape lit ++ [Re.WordBoundary])%list prev s = Some m <->
    m = lit /\
    exists rest : string,
      s = (lit ++ rest)%string /\
      Re.at_boundary (last_before prev lit) rest = true.
Proof.
  induction lit as [|c lit IH]; intros prev s m;
    cbn [Re.escape app Re.match_here last_before].
  - destruct (Re.at_boundary prev s) eqn:Hb; split.
    + intros [= <-]. split; [reflexivity|]. exists s. split; [reflexivity|].
      exact Hb.
    + intros [-> _]. reflexivity.
    + discriminate.
    + intros [_ (rest & Hs & Hr)]. change ("" ++ rest)%string with rest in Hs.
      subst s. congruence.
  - destruct s as [|d s].
    + split; [discriminate|]. intros [_ (rest & Hs & _)]. discriminate Hs.
    + destruct (Ascii.eqb_spec c d) as [<- | Hne].
      * destruct (Re.match_here _ (Some c) s) as [m'|] eqn:Hm; cbn [option_map].
        -- apply IH in Hm as [-> (rest & -> & Hr)]. split.
           ++ intros [= <-]. split; [reflexivity|]. exists rest. split;
                [reflexivity | exact Hr].
           ++ intros [-> _]. reflexivity.
        -- split; [discriminate|].
           intros [_ (rest & [= ->] & Hr)].
           assert (Re.match_here (Re.escape lit ++ [Re.WordBoundary])%list
                     (Some c) (lit ++ rest)%string = Some lit) as Hyes.
           { apply IH. split; [reflexivity|]. exists rest. split;
               [reflexivity | exact Hr]. }
           congruence.
      * split; [discriminate|].
        intros [_ (rest & [= -> _] & _)]. contradiction.
Qed.

(** Whole-word matching: a filler matches at a position exactly when a
    boundary precedes it, its lowered text follows, and a boundary ends
    it. *)
Lemma match_filler (filler : string) (prev : option ascii) (s m : string) :
  Re.match_here (Metrics.filler_pattern filler) prev s = Some m <->
  m = Str.lower filler /\
  Re.at_boundary prev s = true /\
  exists rest : string,
    s = (Str.lower filler ++ rest)%string /\
    Re.at_boundary (last_before prev (Str.lower filler)) rest = true.
Proof.
  unfold Metrics.filler_pattern. cbn [Re.match_here].
  destruct (Re.at_boundary prev s).
  - rewrite match_literal. tauto.
  - split; [discriminate|]. intros (_ & H & _). discriminate H.
Qed.

(** Every text returned by the scan was matched at a position of the
    scanned text. *)
Lemma scan_sound (p : Re.pattern) (s : string) :
  forall (prev : option ascii) (skip : nat) (m : string),
    In m (Re.scan p prev s skip) ->
    exists (prev' : option ascii) (s' : string),
      reaches prev s prev' s' /\ Re.match_here p prev' s' = Some m.
Proof.
  induction s as [|d s IH]; intros prev skip m; cbn [Re.scan].
  - destruct skip; [|intros []].
    destruct (Re.match_here p prev "") as [m'|] eqn:Hm; [|intros []].
    intros [<- | []]. exists prev, ""%string. split; [constructor | exact Hm].
  - assert (forall k, In m (Re.scan p (Some d) s k) ->
              exists prev' s', reaches prev (String d s) prev' s' /\
                               Re.match_here p prev' s' = Some m) as Hnext.
    { intros k Hin. destruct (IH _ _ _ Hin) as (prev' & s' & Hr & Hm).
      exists prev', s'. split; [constructor; exact Hr | exact Hm]. }
    destruct skip; [|apply Hnext].
    destruct (Re.match_here p prev (String d s)) as [m'|] eqn:Hm;
      [|apply Hnext].
    intros [<- | Hin]; [|exact (Hnext _ Hin)].
    exists prev, (String d s). split; [constructor | exact Hm].
Qed.

End ReFacts.

(** ** Counting fillers *)

Module FillerCount.
Import Pos TextFacts ReFacts Metrics.

(** The number of matches of one filler in a lowered text. *)
Lemma fold_count_shift (text : string) (fillers : list string) (a : Z) :
  fold_left
    (fun total filler =>
       (total + Z.of_nat (length (Re.findall (filler_pattern filler) text)))%Z)
    fillers a
  = (a + fold_left
           (fun total filler =>
              (total
               + Z.of_nat (length (Re.findall (filler_pattern filler) text)))%Z)
           fillers 0)%Z.
Proof.
  revert a. induction fillers as [|f fillers IH]; intros a; cbn [fold_left].
  - lia.
  - rewrite IH. rewrite (IH (0 + _)%Z). lia.
Qed.

Lemma count_fillers_app (transcript : string) (fl1 fl2 : list string) :
  count_fillers transcript (Some (fl1 ++ fl2)%list) =
  (count_fillers transcript (Some fl1) + count_fillers transcript (Some fl2))%Z.
Proof.
  unfold count_fillers. destruct (Str.is_empty transcript); [reflexivity|].
  cbn [from_option]; unfold id. rewrite fold_left_app. apply fold_count_shift.
Qed.

Lemma count_fillers_one (transcript filler : string) :
  count_fillers transcript (Some [filler]) =
  if Str.is_empty transcript then 0%Z
  else Z.of_nat
         (length (Re.findall (filler_pattern filler) (Str.lower transcript))).
Proof.
  unfold count_fillers. destruct (Str.is_empty transcript); reflexivity.
Qed.

Lemma filler_pattern_lower (filler : string) :
  filler_pattern (Str.lower filler) = filler_pattern filler.
Proof. unfold filler_pattern. rewrite lower_idem. reflexivity. Qed.

Lemma count_fillers_lower (transcript : string) (fillers : list string) :
  count_fillers transcript (Some fillers) =
  count_fillers (Str.lower transcript) (Some (Str.lower <$> fillers)).
Proof.
  unfold count_fillers. rewrite is_empty_lower.
  destruct (Str.is_empty transcript); [reflexivity|].
  cbn [from_option]; unfold id. rewrite lower_idem. generalize 0%Z.
  induction fillers as [|f fillers IH]; intros a; [reflexivity|].
  cbn [fmap list_fmap fold_left]. rewrite filler_pattern_lower. apply IH.
Qed.

(** Every counted occurrence is the lowered filler, standing between two
    word boundaries of the lowered transcript. *)
Lemma findall_filler_whole_word (filler text m : string) :
  In m (Re.findall (filler_pattern filler) text) ->
  m = Str.lower filler /\
  exists (prev : option ascii) (s rest : string),
    reaches None text prev s /\
    s = (Str.lower filler ++ rest)%string /\
    Re.at_boundary prev s = true /\
    Re.at_boundary (last_before prev (Str.lower filler)) rest = true.
Proof.
  intros Hin. apply scan_sound in Hin as (prev & s & Hreach & Hm).
  apply match_filler in Hm as (-> & Hb & rest & -> & Hr).
  split; [reflexivity|].
  exists prev, (Str.lower filler ++ rest)%string, rest. auto.
Qed.

(** C6: [count_fillers] sums, over the filler list, the occurrences of
    each filler; it is case-insensitive (it reads the transcript and the
    fillers lowered); an occurrence is the whole lowered filler between
    two word boundaries; in particular "like" is not found inside
    "unlike", and "um, uh, like, you know" holds four default fillers. *)
Theorem count_fillers_whole_word :
  (forall (transcript : string) (fl1 fl2 : list string),
      count_fillers transcript (Some (fl1 ++ fl2)%list) =
      (count_fillers transcript (Some fl1)
       + count_fillers transcript (Some fl2))%Z) /\
  (forall transcript filler : string,
      count_fillers transcript (Some [filler]) =
      if Str.is_empty transcript then 0%Z
      else Z.of_nat
             (length (Re.findall (filler_pattern filler)
                        (Str.lower transcript)))) /\
  (forall (transcript : string) (fillers : list string),
      count_fillers transcript (Some fillers) =
      count_fillers (Str.lower transcript) (Some (Str.lower <$> fillers))) /\
  (forall filler text m : string,
      In m (Re.findall (filler_pattern filler) text) ->
      m = Str.lower filler /\
      exists (prev : option ascii) (s rest : string),
        reaches None text prev s /\
        s = (Str.lower filler ++ rest)%string /\
        Re.at_boundary prev s = true /\
        Re.at_boundary (last_before prev (Str.lower filler)) rest = true) /\
  count_fillers "I unlike this" (Some ["like"]) = 0%Z /\
  count_fillers "I UNLIKE this, LIKE that" (Some ["Like"]) = 1%Z /\
  count_fillers "um, uh, like, you know" None = 4%Z.
Proof.
  split; [exact count_fillers_app|].
  split; [exact count_fillers_one|].
  split; [exact count_fillers_lower|].
  split; [exact findall_filler_whole_word|].
  repeat split.
Qed.

End FillerCount.

(** ** The metrics dict *)

Module MetricsFacts.
Import Py PyFacts Pos TextFacts Metrics MetricsSpec.

Lemma findall_word_empty : Re.findall word_pattern "" = [].
Proof. reflexivity. Qed.

(** The four entries of the result, read off the code. *)
Lemma compute_metrics_lookup (transcript : string) (duration_seconds : Q) :
  let m := compute_metrics transcript duration_seconds in
  m !! "wpm" = Some (Float (compute_wpm transcript duration_seconds)) /\
  m !! "totalWords" =
    Some (Int (Z.of_nat (length (Re.findall word_pattern transcript)))) /\
  m !! "totalFillers" = Some (Int (count_fillers transcript None)) /\
  m !! "fillersPerMin" =
    Some (Float
            (round
               (if leb duration_seconds 0 then 0%Q
                else (inject_Z (count_fillers transcript None)
                      / max duration_seconds 0.1 * 60)%Q) 2)).
Proof.
  cbv zeta. unfold compute_metrics.
  assert ((if Str.is_empty transcript then []
           else Re.findall word_pattern transcript)
          = Re.findall word_pattern transcript) as ->.
  { destruct transcript; reflexivity. }
  repeat split; simplify_map_eq; reflexivity.
Qed.

(** C5, as amended: for "hi um my name is pavit and like I want to speak
    better" and 30 seconds, [compute_metrics] returns totalWords = 13,
    totalFillers = 2, wpm = (13/30)*60 = 26.0 and
    fillersPerMin = (2/30)*60 = 4.0. *)
Theorem compute_metrics_end_to_end :
  metrics_are
    (compute_metrics
       "hi um my name is pavit and like I want to speak better" 30)
    26 13 2 4.
Proof.
  destruct (compute_metrics_lookup
              "hi um my name is pavit and like I want to speak better" 30)
    as (Hw & Ht & Hf & Hp).
  unfold metrics_are. do 2 eexists.
  split; [exact Hw|]. split; [reflexivity|].
  split; [exact Ht|]. split; [exact Hf|].
  split; [exact Hp|]. reflexivity.
Qed.

(** C5, as stated (11 words, 22.0 wpm), does not hold: the word pattern
    finds 13 tokens. *)
Lemma compute_metrics_end_to_end_not_11 :
  ~ metrics_are
      (compute_metrics
         "hi um my name is pavit and like I want to speak better" 30)
      22 11 2 4.
Proof.
  destruct (compute_metrics_lookup
              "hi um my name is pavit and like I want to speak better" 30)
    as (_ & Ht & _).
  intros (w & f & _ & _ & Ht' & _).
  rewrite Ht in Ht'. discriminate Ht'.
Qed.

(** With at least one token, a duration up to 0.1 s is clamped to 0.1 s:
    the rate is 600 words per minute per token, whatever the sign of the
    duration. *)
Lemma compute_wpm_clamped (transcript : string) (duration_seconds : Q) :
  Re.findall word_pattern transcript <> [] ->
  (duration_seconds <= 0.1)%Q ->
  (compute_wpm transcript duration_seconds
   == 600 * inject_Z (Z.of_nat (length (Re.findall word_pattern transcript))))%Q.
Proof.
  intros Hwords Hd. unfold compute_wpm.
  destruct transcript as [|c t]; [contradiction Hwords; reflexivity|].
  cbn [Str.is_empty].
  destruct (Re.findall word_pattern (String c t)) as [|w ws];
    [contradiction Hwords; reflexivity|].
  cbn [length]. rewrite Nat2Z.inj_succ.
  destruct (Z.eqb_spec (Z.succ (Z.of_nat (length ws))) 0) as [H0|_]; [lia|].
  assert (max duration_seconds 0.1 == 0.1)%Q as ->.
  { unfold max. py_case; lra. }
  set (n := inject_Z (Z.succ (Z.of_nat (length ws)))).
  change (n / 0.1)%Q with (n * 10)%Q. lra.
Qed.

(** Without tokens the rate is 0. *)
Lemma compute_wpm_no_words (transcript : string) (duration_seconds : Q) :
  Re.findall word_pattern transcript = [] ->
  compute_wpm transcript duration_seconds = 0%Q.
Proof.
  intros Hwords. unfold compute_wpm. rewrite Hwords.
  destruct (Str.is_empty transcript); reflexivity.
Qed.

(** C4 at the failing input: one word spoken in 0 seconds is rated 600
    words per minute, not 0. *)
Theorem compute_wpm_zero_duration :
  Re.findall word_pattern "hi" = ["hi"] /\
  (compute_wpm "hi" 0 == 600)%Q /\
  ~ (compute_wpm "hi" 0 == 0)%Q /\
  exists w : Q,
    compute_metrics "hi" 0 !! "wpm" = Some (Float w) /\ (w == 600)%Q.
Proof.
  split; [reflexivity|]. split; [reflexivity|]. split; [discriminate|].
  destruct (compute_metrics_lookup "hi" 0) as (Hw & _).
  eexists. split; [exact Hw | reflexivity].
Qed.

End MetricsFacts.

(** ** Highlights *)

Module HighlightFacts.
Import Pos TextFacts Metrics.

(** The loop reads the filler set only through the lowered tokens. *)
Lemma highlights_from_ext (words : list string) (set1 set2 : gset string) :
  (forall w : string, In w words -> Str.lower w ∈ set1 <-> Str.lower w ∈ set2) ->
  forall idx : Z, highlights_from idx words set1 = highlights_from idx words set2.
Proof.
  induction words as [|w words IH]; intros Hsame idx; [reflexivity|].
  cbn [highlights_from].
  rewrite (bool_decide_ext _ _ (Hsame w (or_introl eq_refl))).
  rewrite !(IH (fun w' Hin => Hsame w' (or_intror Hin))). reflexivity.
Qed.

Lemma highlights_from_empty (words : list string) (idx : Z) :
  highlights_from idx words ∅ = [].
Proof.
  revert idx. induction words as [|w words IH]; intros idx; [reflexivity|].
  cbn [highlights_from].
  rewrite bool_decide_eq_false_2 by apply not_elem_of_empty.
  apply IH.
Qed.

(** The loop emits an entry exactly for the tokens whose lowered text is in
    the filler set, under the token's index. *)
Lemma highlights_from_spec (words : list string) (fillers : gset string) :
  forall (idx : Z) (h : highlight),
    In h (highlights_from idx words fillers) <->
    type h = "filler" /\
    exists (i : nat) (w : string),
      wordIndex h = (idx + Z.of_nat i)%Z /\
      words !! i = Some w /\ Str.lower w ∈ fillers.
Proof.
  induction words as [|w words IH]; intros idx h; cbn [highlights_from].
  - split; [intros [] | intros (_ & i & w & _ & Hw & _); discriminate Hw].
  - assert (In h (highlights_from (idx + 1) words fillers) <->
            type h = "filler" /\
            exists (i : nat) (w' : string),
              wordIndex h = (idx + Z.of_nat (S i))%Z /\
              (w :: words) !! S i = Some w' /\ Str.lower w' ∈ fillers)
      as Htail.
    { rewrite IH. split; intros (Ht & i & w' & Hi & Hw & Hin);
        (split; [exact Ht|]); exists i, w'; (split; [lia|]); auto. }
    destruct (bool_decide_reflect (Str.lower w ∈ fillers)) as [Hin | Hout].
    + cbn [In]. rewrite Htail. split.
      * intros [<- | (Ht & i & w' & Hi & Hw & Hin')].
        -- split; [reflexivity|]. exists 0%nat, w. cbn.
           split; [lia|]. auto.
        -- split; [exact Ht|]. exists (S i), w'. auto.
      * intros (Ht & [|i] & w' & Hi & Hw & Hin').
        -- left. destruct h as [hi ht]. cbn in *. f_equal; [lia | congruence].
        -- right. split; [exact Ht|]. exists i, w'. auto.
    + rewrite Htail. split.
      * intros (Ht & i & w' & Hi & Hw & Hin').
        split; [exact Ht|]. exists (S i), w'. auto.
      * intros (Ht & [|i] & w' & Hi & Hw & Hin').
        -- cbn in Hw. injection Hw as <-. contradiction.
        -- split; [exact Ht|]. exists i, w'. auto.
Qed.

Lemma compute_highlights_spec (transcript : string) (fillers : list string)
  (h : highlight) :
  In h (compute_highlights transcript (Some fillers)) <->
  type h = "filler" /\
  exists (i : nat) (w filler : string),
    wordIndex h = Z.of_nat i /\
    Str.split transcript !! i = Some w /\
    In filler fillers /\ Str.lower w = Str.lower filler.
Proof.
  assert (forall w : string,
             Str.lower w ∈@{gset string} list_to_set (Str.lower <$> fillers) <->
             exists filler, In filler fillers /\ Str.lower w = Str.lower filler)
    as Hset.
  { intros w. rewrite elem_of_list_to_set, list_elem_of_fmap.
    split; intros (f & H1 & H2); exists f.
    - apply list_elem_of_In in H2. auto.
    - apply list_elem_of_In in H1. auto. }
  unfold compute_highlights. cbn [from_option]. unfold id.
  destruct transcript as [|c t]; cbn [Str.is_empty].
  - split; [intros [] | intros (_ & i & w & f & _ & Hw & _); discriminate Hw].
  - rewrite highlights_from_spec. split.
    + intros (Ht & i & w & Hi & Hw & Hin). apply Hset in Hin as (f & Hf & Hl).
      split; [exact Ht|]. exists i, w, f.
      split; [lia|]. auto.
    + intros (Ht & i & w & f & Hi & Hw & Hf & Hl).
      split; [exact Ht|]. exists i, w.
      split; [lia|]. split; [exact Hw|].
      apply Hset. exists f. auto.
Qed.

(** No token of a split transcript is lowered to "you know". *)
Lemma token_not_you_know (transcript w : string) :
  In w (Str.split transcript) -> Str.lower w <> "you know".
Proof.
  intros Hin Heq. apply split_no_space, lower_keeps_space in Hin.
  rewrite Heq in Hin. discriminate Hin.
Qed.

Lemma highlights_you_know (transcript : string) :
  compute_highlights transcript (Some ["you know"]) = [].
Proof.
  unfold compute_highlights. destruct (Str.is_empty transcript); [reflexivity|].
  cbn [from_option]. unfold id.
  rewrite <- (highlights_from_empty (Str.split transcript) 0).
  apply highlights_from_ext. intros w Hin.
  pose proof (token_not_you_know transcript w Hin) as Hne.
  change (Str.lower <$> ["you know"]) with ["you know"].
  rewrite elem_of_list_to_set, list_elem_of_In. cbn [In].
  split; [intros [Heq | []]; congruence | intros Hin'].
  exfalso. exact (not_elem_of_empty _ Hin').
Qed.

Lemma highlights_default (transcript : string) :
  compute_highlights transcript None =
  compute_highlights transcript (Some ["um"; "uh"; "like"]).
Proof.
  unfold compute_highlights. destruct (Str.is_empty transcript); [reflexivity|].
  cbn [from_option]. unfold id, default_fillers.
  apply highlights_from_ext. intros w Hin.
  pose proof (token_not_you_know transcript w Hin) as Hne.
  change (Str.lower <$> ["um"; "uh"; "like"; "you know"])
    with ["um"; "uh"; "like"; "you know"].
  change (Str.lower <$> ["um"; "uh"; "like"])
    with ["um"; "uh"; "like"].
  rewrite !elem_of_list_to_set, !list_elem_of_In. cbn [In].
  intuition congruence.
Qed.

(** C10: [count_fillers] and [compute_highlights] can disagree on one
    transcript with the default fillers: a highlight needs a token of the
    white-space split whose lowered text equals a lowered filler, so no
    transcript ever gets a highlight for the two-word filler "you know";
    a filler with attached punctuation ("um,") is counted but not
    highlighted; and so some transcripts have strictly fewer highlights
    than counted fillers. *)
Theorem highlights_and_count_disagree :
  (forall (transcript : string) (fillers : list string) (h : highlight),
      In h (compute_highlights transcript (Some fillers)) <->
      type h = "filler" /\
      exists (i : nat) (w filler : string),
        wordIndex h = Z.of_nat i /\
        Str.split transcript !! i = Some w /\
        In filler fillers /\ Str.lower w = Str.lower filler) /\
  (forall transcript : string,
      compute_highlights transcript (Some ["you know"]) = []) /\
  (forall transcript : string,
      compute_highlights transcript None =
      compute_highlights transcript (Some ["um"; "uh"; "like"])) /\
  (count_fillers "you know" None = 1%Z /\
   compute_highlights "you know" None = []) /\
  (count_fillers "um," None = 1%Z /\ compute_highlights "um," None = []) /\
  (exists transcript : string,
      (Z.of_nat (length (compute_highlights transcript None))
       < count_fillers transcript None)%Z).
Proof.
  split; [exact compute_highlights_spec|].
  split; [exact highlights_you_know|].
  split; [exact highlights_default|].
  split; [split; vm_compute; reflexivity|].
  split; [split; vm_compute; reflexivity|].
  exists "um,". vm_compute. reflexivity.
Qed.

End HighlightFacts.

(** ** A persona without a target range *)

Module MissingRange.
Import Py PyFacts Coach Metrics.

(** Without a [wpm] entry the range [[0, 0]] is scored. *)
Lemma pace_without_range (metrics : gmap string num) (persona : option Persona) :
  t_wpm (targets_of persona) = None ->
  pace (dimensions (score_against_persona metrics persona)) =
  round (_score_pace (float (default (Float 0) (metrics !! "wpm")))
           [Int 0; Int 0]) 3.
Proof.
  intros Hnone. unfold score_against_persona. cbn [dimensions pace].
  rewrite Hnone. reflexivity.
Qed.

(** Against [[0, 0]] a rate up to 0.15 words per minute is "slightly
    outside". *)
Lemma score_pace_default_range_slow (wpm : Q) :
  (0 < wpm)%Q -> (wpm <= 0.15)%Q -> _score_pace wpm [Int 0; Int 0] = 0.8%Q.
Proof.
  intros Hpos Hslow. rewrite PaceFacts.score_pace_pair.
  apply leb_false in Hpos as Hp. rewrite Hp.
  change (float (Int 0)) with 0%Q.
  assert (leb 0 wpm && leb wpm 0 = false) as ->.
  { rewrite Hp. apply andb_false_r. }
  assert (PaceSpec.code_diff wpm 0 0 == wpm)%Q as Hd.
  { unfold PaceSpec.code_diff.
    assert (ltb wpm 0 = false) as -> by (apply ltb_false; lra).
    change (max (0 - 0) 1) with 1%Q. unfold Qdiv. change (/ 1)%Q with 1%Q.
    lra. }
  assert (leb (PaceSpec.code_diff wpm 0 0) 0.15 = true) as ->.
  { apply leb_true. rewrite Hd. exact Hslow. }
  reflexivity.
Qed.

(** C8 at the failing input: one word in 600 seconds (0.1 words per
    minute) scored against a persona without targets gets pace 0.8, not
    0.2. *)
Theorem pace_without_range_not_default :
  (exists w : Q,
      compute_metrics "hi" 600 !! "wpm" = Some (Float w) /\ (w == 0.1)%Q) /\
  (pace (dimensions (score_against_persona (compute_metrics "hi" 600) None))
   == 0.8)%Q /\
  (forall wpm : Q, _score_pace wpm [] = 0.2%Q).
Proof.
  split; [|split].
  - destruct (MetricsFacts.compute_metrics_lookup "hi" 600) as (Hw & _).
    eexists. split; [exact Hw | reflexivity].
  - rewrite pace_without_range by reflexivity.
    destruct (MetricsFacts.compute_metrics_lookup "hi" 600) as (Hw & _).
    rewrite Hw. cbn [from_option]. unfold id. cbn [float].
    rewrite score_pace_default_range_slow; [reflexivity | | ].
    + reflexivity.
    + discriminate.
  - intros wpm. unfold _score_pace. cbn. rewrite orb_true_r. reflexivity.
Qed.

End MissingRange.

(** * Further properties of the metrics *)

Module TokenFacts.
Import Pos TextFacts ReFacts Metrics.

(** One step of the greedy repetition. *)
Lemma match_class_plus (cls : ascii -> bool) (p : Re.pattern)
  (prev : option ascii) (d : ascii) (s : string) :
  Re.match_here (Re.ClassPlus cls :: p) prev (String d s) =
  if cls d then
    match Re.match_here (Re.ClassPlus cls :: p) (Some d) s with
    | Some m => Some (String d m)
    | None => option_map (String d) (Re.match_here p (Some d) s)
    end
  else None.
Proof. reflexivity. Qed.

Lemma match_class_plus_empty (cls : ascii -> bool) (p : Re.pattern)
  (prev : option ascii) :
  Re.match_here (Re.ClassPlus cls :: p) prev "" = None.
Proof. reflexivity. Qed.

(** A match is a prefix of the text it was tried on. *)
Lemma match_here_prefix (p : Re.pattern) :
  forall (prev : option ascii) (s m : string),
    Re.match_here p prev s = Some m ->
    exists rest : string, s = (m ++ rest)%string.
Proof.
  induction p as [|a p IH]; intros prev s m.
  - intros [= <-]. exists s. reflexivity.
  - destruct a as [|c|cls].
    + cbn [Re.match_here]. destruct (Re.at_boundary prev s); [apply IH|].
      discriminate.
    + cbn [Re.match_here]. destruct s as [|d s]; [discriminate|].
      destruct (Ascii.eqb c d); [|discriminate].
      destruct (Re.match_here p (Some d) s) as [m'|] eqn:Hm; [|discriminate].
      intros [= <-]. destruct (IH _ _ _ Hm) as [rest ->].
      exists rest. reflexivity.
    + revert prev m. induction s as [|d s IHs]; intros prev m.
      * rewrite match_class_plus_empty. discriminate.
      * rewrite match_class_plus. destruct (cls d); [|discriminate].
        destruct (Re.match_here (Re.ClassPlus cls :: p) (Some d) s)
          as [m'|] eqn:Hm.
        -- intros [= <-]. destruct (IHs _ _ Hm) as [rest ->].
           exists rest. reflexivity.
        -- destruct (Re.match_here p (Some d) s) as [m'|] eqn:Hm';
             [|discriminate].
           intros [= <-]. destruct (IH _ _ _ Hm') as [rest ->].
           exists rest. reflexivity.
Qed.

Lemma length_append (a b : string) :
  String.length (a ++ b)%string = (String.length a + String.length b)%nat.
Proof.
  induction a as [|c a IH]; [reflexivity|].
  change (String c a ++ b)%string with (String c (a ++ b)%string).
  cbn [String.length]. rewrite IH. reflexivity.
Qed.

Lemma match_here_length (p : Re.pattern) (prev : option ascii) (s m : string) :
  Re.match_here p prev s = Some m -> (String.length m <= String.length s)%nat.
Proof.
  intros Hm. destruct (match_here_prefix _ _ _ _ Hm) as [rest ->].
  rewrite length_append. lia.
Qed.

(** The matches of a scan do not overlap: together they are no longer
    than the text. *)
Lemma scan_lengths (p : Re.pattern) (s : string) :
  forall (prev : option ascii) (skip : nat),
    (skip <= String.length s)%nat ->
    (sum_list (String.length <$> Re.scan p prev s skip) + skip
     <= String.length s)%nat.
Proof.
  induction s as [|d s IH]; intros prev skip Hskip; cbn [Re.scan].
  - cbn [String.length] in *. destruct skip; [|lia].
    destruct (Re.match_here p prev "") as [m|] eqn:Hm; [|cbn; lia].
    apply match_here_length in Hm. cbn in *. lia.
  - cbn [String.length] in *. destruct skip as [|k].
    + destruct (Re.match_here p prev (String d s)) as [m|] eqn:Hm.
      * apply match_here_length in Hm. cbn [String.length] in Hm.
        cbn [fmap list_fmap sum_list].
        change (list_fmap string nat String.length) with
          (fmap (M:=list) String.length).
        assert (pred (String.length m) <= String.length s)%nat as Hpred by lia.
        specialize (IH (Some d) (pred (String.length m)) Hpred).
        set (rest := sum_list _) in *. unfold id. lia.
      * specialize (IH (Some d) 0%nat). lia.
    + specialize (IH (Some d) k). lia.
Qed.

(** What a match of the word pattern looks like. *)
Lemma match_token_run (cls : ascii -> bool) (s : string) :
  forall (prev : option ascii) (m : string),
    Re.match_here [Re.ClassPlus cls; Re.WordBoundary] prev s = Some m ->
    m <> ""%string /\ all_chars cls m = true.
Proof.
  induction s as [|d s IH]; intros prev m.
  - rewrite match_class_plus_empty. discriminate.
  - rewrite match_class_plus. destruct (cls d) eqn:Hd; [|discriminate].
    destruct (Re.match_here [Re.ClassPlus cls; Re.WordBoundary] (Some d) s)
      as [m'|] eqn:Hm.
    + intros [= <-]. destruct (IH _ _ Hm) as [_ Hall].
      split; [discriminate|]. cbn [all_chars]. rewrite Hd, Hall. reflexivity.
    + cbn [Re.match_here]. destruct (Re.at_boundary (Some d) s);
        [|discriminate].
      intros [= <-]. split; [discriminate|].
      cbn [all_chars]. rewrite Hd. reflexivity.
Qed.

Lemma match_word (prev : option ascii) (s m : string) :
  Re.match_here word_pattern prev s = Some m ->
  m <> ""%string /\ all_chars Chars.is_token_char m = true.
Proof.
  unfold word_pattern. cbn [Re.match_here].
  destruct (Re.at_boundary prev s); [|discriminate].
  apply (match_token_run Chars.is_token_char s prev m).
Qed.

Lemma tokens_shape (transcript : string) :
  Forall (fun token => token <> ""%string /\
                       all_chars Chars.is_token_char token = true)
    (Re.findall word_pattern transcript).
Proof.
  apply List.Forall_forall. intros token Hin.
  apply scan_sound in Hin as (prev & s & _ & Hm).
  exact (match_word _ _ _ Hm).
Qed.

Lemma sum_list_lower_bound (l : list string) :
  Forall (fun token => token <> ""%string) l ->
  (length l <= sum_list (String.length <$> l))%nat.
Proof.
  induction 1 as [|token l Htoken _ IH]; [reflexivity|].
  cbn [length fmap list_fmap sum_list].
  change (list_fmap string nat String.length) with
    (fmap (M:=list) String.length).
  destruct token; [contradiction|]. cbn [String.length].
  set (rest := sum_list _) in *. unfold id. lia.
Qed.

(** X1: every word token is a non-empty run of [\w], apostrophe and
    hyphen characters; the tokens do not overlap, so their lengths sum to
    at most the length of the transcript and there are at most as many
    tokens as characters. *)
Theorem word_tokens_shape (transcript : string) :
  let tokens := Re.findall word_pattern transcript in
  Forall (fun token => token <> ""%string /\
                       all_chars Chars.is_token_char token = true) tokens /\
  (sum_list (String.length <$> tokens) <= String.length transcript)%nat /\
  (length tokens <= String.length transcript)%nat.
Proof.
  cbv zeta. pose proof (tokens_shape transcript) as Hshape.
  pose proof (scan_lengths word_pattern transcript None 0 (Nat.le_0_l _))
    as Hsum.
  fold (Re.findall word_pattern transcript) in Hsum.
  split; [exact Hshape|]. split; [lia|].
  set (tokens := Re.findall word_pattern transcript) in *.
  assert (length tokens <= sum_list (String.length <$> tokens))%nat as Hlen.
  { apply sum_list_lower_bound. eapply List.Forall_impl; [|exact Hshape].
    intros token [H _]. exact H. }
  lia.
Qed.

End TokenFacts.

(** ** The matcher against the declarative tokens *)

Module WordsFacts.
Import Pos TextFacts ReFacts Metrics TokenFacts TokenSpec.

Lemma append_nonempty_head (m rest : string) (d : ascii) (s : string) :
  m <> ""%string -> String d s = (m ++ rest)%string ->
  exists m0 : string, m = String d m0 /\ s = (m0 ++ rest)%string.
Proof.
  intros Hne Heq. destruct m as [|c m0]; [contradiction|].
  change (String c m0 ++ rest)%string with (String c (m0 ++ rest)%string)
    in Heq.
  injection Heq as -> ->. exists m0. split; reflexivity.
Qed.

(** Two prefixes of one text that have the same length are equal. *)
Lemma append_same_length (m1 : string) :
  forall m2 r1 r2 : string,
    (m1 ++ r1)%string = (m2 ++ r2)%string ->
    String.length m1 = String.length m2 ->
    m1 = m2 /\ r1 = r2.
Proof.
  induction m1 as [|c m1 IH]; intros [|c2 m2] r1 r2 Heq Hlen;
    try discriminate Hlen.
  - change (r1 = r2) in Heq. split; [reflexivity | exact Heq].
  - change (String c (m1 ++ r1)%string = String c2 (m2 ++ r2)%string) in Heq.
    injection Heq as -> Heq. injection Hlen as Hlen.
    destruct (IH _ _ _ Heq Hlen) as [-> ->]. split; reflexivity.
Qed.

(** The greedy repetition followed by [\b] returns the longest run that
    ends at a boundary, and fails only where no run does. *)
Lemma match_run_longest (cls : ascii -> bool) (s : string) :
  forall prev : option ascii,
    match Re.match_here [Re.ClassPlus cls; Re.WordBoundary] prev s with
    | Some m =>
        (m <> ""%string /\ all_chars cls m = true /\
         exists rest : string,
           s = (m ++ rest)%string /\
           Re.at_boundary (last_before prev m) rest = true) /\
        (forall m' rest' : string,
            m' <> ""%string -> all_chars cls m' = true ->
            s = (m' ++ rest')%string ->
            Re.at_boundary (last_before prev m') rest' = true ->
            (String.length m' <= String.length m)%nat)
    | None =>
        forall m' rest' : string,
          m' <> ""%string -> all_chars cls m' = true ->
          s = (m' ++ rest')%string ->
          Re.at_boundary (last_before prev m') rest' = true -> False
    end.
Proof.
  induction s as [|d s IH]; intros prev.
  - rewrite match_class_plus_empty. intros [|c m'] rest' Hne _ Heq _;
      [contradiction | discriminate Heq].
  - rewrite match_class_plus. destruct (cls d) eqn:Hd.
    + specialize (IH (Some d)).
      destruct (Re.match_here [Re.ClassPlus cls; Re.WordBoundary] (Some d) s)
        as [m|] eqn:Hm.
      * destruct IH as [(Hne & Hall & rest & Hs & Hb) Hmax]. split.
        -- split; [discriminate|]. split.
           ++ cbn [all_chars]. rewrite Hd, Hall. reflexivity.
           ++ exists rest. split; [rewrite Hs; reflexivity | exact Hb].
        -- intros m' rest' Hne' Hall' Heq' Hb'.
           destruct (append_nonempty_head _ _ _ _ Hne' Heq')
             as (m0 & -> & Hs0).
           cbn [String.length]. apply le_n_S.
           destruct m0 as [|c0 m0]; [cbn [String.length]; lia|].
           cbn [all_chars] in Hall'. apply andb_true_iff in Hall' as [_ Hall'].
           apply (Hmax _ rest'); [discriminate | exact Hall' | exact Hs0|].
           exact Hb'.
      * cbn [Re.match_here]. destruct (Re.at_boundary (Some d) s) eqn:Hb.
        -- cbn [option_map]. split.
           ++ split; [discriminate|]. split.
              ** cbn [all_chars]. rewrite Hd. reflexivity.
              ** exists s. split; [reflexivity | exact Hb].
           ++ intros m' rest' Hne' Hall' Heq' Hb'.
              destruct (append_nonempty_head _ _ _ _ Hne' Heq')
                as (m0 & -> & Hs0).
              destruct m0 as [|c0 m0]; [cbn [String.length]; lia|].
              exfalso.
              cbn [all_chars] in Hall'.
              apply andb_true_iff in Hall' as [_ Hall'].
              apply (IH (String c0 m0) rest');
                [discriminate | exact Hall' | exact Hs0 | exact Hb'].
        -- cbn [option_map]. intros m' rest' Hne' Hall' Heq' Hb'.
           destruct (append_nonempty_head _ _ _ _ Hne' Heq')
             as (m0 & -> & Hs0).
           destruct m0 as [|c0 m0].
           ++ change (s = rest') in Hs0. subst rest'.
              cbn [last_before] in Hb'. congruence.
           ++ cbn [all_chars] in Hall'.
              apply andb_true_iff in Hall' as [_ Hall'].
              apply (IH (String c0 m0) rest');
                [discriminate | exact Hall' | exact Hs0 | exact Hb'].
    + intros m' rest' Hne' Hall' Heq' _.
      destruct (append_nonempty_head _ _ _ _ Hne' Heq') as (m0 & -> & _).
      cbn [all_chars] in Hall'. rewrite Hd in Hall'. discriminate Hall'.
Qed.

Lemma match_boundary (p : Re.pattern) (prev : option ascii) (s : string) :
  Re.match_here (Re.WordBoundary :: p) prev s =
  if Re.at_boundary prev s then Re.match_here p prev s else None.
Proof. reflexivity. Qed.

(** The word pattern at one position. *)
Lemma match_word_longest (prev : option ascii) (s : string) :
  match Re.match_here word_pattern prev s with
  | Some m => longest_word_at prev s m
  | None => forall m : string, ~ word_at prev s m
  end.
Proof.
  unfold word_pattern. rewrite match_boundary.
  destruct (Re.at_boundary prev s) eqn:Hstart.
  - pose proof (match_run_longest Chars.is_token_char s prev) as Hrun.
    destruct (Re.match_here
                [Re.ClassPlus Chars.is_token_char; Re.WordBoundary] prev s)
      as [m|].
    + destruct Hrun as [(Hne & Hall & rest & Hs & Hb) Hmax]. split.
      * split; [exact Hne|]. split; [exact Hall|]. split; [exact Hstart|].
        exists rest. split; assumption.
      * intros m' (Hne' & Hall' & _ & rest' & Hs' & Hb').
        exact (Hmax m' rest' Hne' Hall' Hs' Hb').
    + intros m' (Hne' & Hall' & _ & rest' & Hs' & Hb').
      exact (Hrun m' rest' Hne' Hall' Hs' Hb').
  - intros m' (_ & _ & Hstart' & _). congruence.
Qed.

(** Passing over a match leads to the position after it. *)
Lemma scan_skip (p : Re.pattern) (m rest : string) :
  forall prev : option ascii,
    Re.scan p prev (m ++ rest)%string (String.length m) =
    Re.scan p (last_before prev m) rest 0.
Proof.
  induction m as [|c m IH]; intros prev.
  - reflexivity.
  - change (String c m ++ rest)%string with (String c (m ++ rest)%string).
    cbn [String.length Re.scan last_before]. apply IH.
Qed.

(** The scan of the word pattern yields the declarative tokens. *)
Lemma scan_words (n : nat) :
  forall (s : string) (prev : option ascii),
    (String.length s <= n)%nat ->
    words_from prev s (Re.scan word_pattern prev s 0).
Proof.
  induction n as [|n IH]; intros s prev Hlen.
  - destruct s as [|d s]; [|cbn [String.length] in Hlen; lia].
    cbn [Re.scan]. pose proof (match_word_longest prev "") as Hm.
    destruct (Re.match_here word_pattern prev "") as [m|]; [|constructor].
    destruct Hm as [(Hne & _ & _ & rest & Hs & _) _].
    destruct m; [contradiction | discriminate Hs].
  - destruct s as [|d s].
    + cbn [Re.scan]. pose proof (match_word_longest prev "") as Hm.
      destruct (Re.match_here word_pattern prev "") as [m|]; [|constructor].
      destruct Hm as [(Hne & _ & _ & rest & Hs & _) _].
      destruct m; [contradiction | discriminate Hs].
    + cbn [String.length] in Hlen. cbn [Re.scan].
      pose proof (match_word_longest prev (String d s)) as Hm.
      destruct (Re.match_here word_pattern prev (String d s)) as [m|].
      * pose proof Hm as [(Hne & _ & _ & rest & Hs & _) _].
        destruct (append_nonempty_head _ _ _ _ Hne Hs) as (m0 & -> & Hs0).
        apply (words_take prev (String d s) (String d m0) rest);
          [exact Hm | exact Hs|].
        cbn [String.length pred last_before]. subst s.
        rewrite scan_skip. apply IH. rewrite length_append in Hlen. lia.
      * apply words_skip; [exact Hm|]. apply IH. lia.
Qed.

(** The declarative tokens are determined by the text. *)
Lemma words_from_unique (prev : option ascii) (s : string)
  (tokens : list string) :
  words_from prev s tokens ->
  forall tokens' : list string, words_from prev s tokens' -> tokens' = tokens.
Proof.
  induction 1 as [prev | prev d s tokens Hnone _ IH
                  | prev s m rest tokens Hlong Hs _ IH];
    intros tokens' H'.
  - inversion H' as [| | prev' s' m' rest' tokens0 Hlong' Hs' Hrest'];
      [reflexivity|]. subst.
    destruct Hlong' as [(Hne & _) _].
    destruct m'; [contradiction | discriminate Hs'].
  - inversion H' as [| prev' d' s' tokens0 Hnone' Hrest'
                     | prev' s' m' rest' tokens0 Hlong' Hs' Hrest']; subst.
    + apply IH. exact Hrest'.
    + destruct Hlong' as [Hword _]. exfalso. exact (Hnone _ Hword).
  - destruct Hlong as [Hword Hmax].
    inversion H' as [prev' | prev' d' s' tokens0 Hnone' Hrest'
                     | prev' s' m' rest' tokens0 Hlong' Hs' Hrest']; subst.
    + destruct Hword as (Hne & _).
      destruct m; [contradiction | discriminate].
    + exfalso. match goal with
               | Heq : String d' s' = _ |- _ => rewrite Heq in Hnone'
               end.
      exact (Hnone' _ Hword).
    + destruct Hlong' as [Hword' Hmax'].
      assert (String.length m = String.length m') as Hlen.
      { apply Nat.le_antisymm; [apply Hmax', Hword | apply Hmax, Hword']. }
      destruct (append_same_length _ _ _ _ Hs' Hlen) as [-> ->].
      f_equal. apply IH. exact Hrest'.
Qed.

(** [re.findall] with the word pattern, without the matcher. *)
Lemma findall_words (text : string) :
  words_from None text (Re.findall word_pattern text) /\
  forall tokens : list string,
    words_from None text tokens -> tokens = Re.findall word_pattern text.
Proof.
  assert (words_from None text (Re.findall word_pattern text)) as H
    by (apply (scan_words (String.length text)); lia).
  split; [exact H | apply words_from_unique, H].
Qed.

End WordsFacts.

(** ** The fields of the metrics *)

Module FieldFacts.
Import Py PyFacts Pos Metrics MetricsFacts TokenSpec RoundSpec.

(** [count_fillers(transcript)] uses the four default fillers. *)
Lemma count_fillers_default (transcript : string) :
  count_fillers transcript None =
  count_fillers transcript (Some ["um"; "uh"; "like"; "you know"]).
Proof. reflexivity. Qed.

(** C7: for every transcript and every finite duration, totalWords is the
    number of tokens of the word pattern, that is of the runs of [[\w'-]]
    characters between word boundaries taken from left to right, the
    longest one at each position (so it is not negative); totalFillers is
    [count_fillers] with the default list "um", "uh", "like", "you know";
    fillersPerMin is 0 for a duration that is not positive and otherwise
    [(totalFillers / max(d, 0.1)) * 60] rounded to two decimal places: a
    whole number of hundredths nearest to it, either neighbour at a tie.
    The closing cases give the tokens of two texts and the three fields
    for a text of nine words spoken in seven seconds, for a duration of
    zero, and for a duration under the floor of a tenth of a second. *)
Theorem compute_metrics_fields :
  (forall (transcript : string) (duration_seconds : Q),
      let m := compute_metrics transcript duration_seconds in
      let total_fillers :=
        count_fillers transcript (Some ["um"; "uh"; "like"; "you know"]) in
      (exists tokens : list string,
          tokens = Re.findall word_pattern transcript /\
          words_from None transcript tokens /\
          (forall tokens' : list string,
              words_from None transcript tokens' -> tokens' = tokens) /\
          m !! "totalWords" = Some (Int (Z.of_nat (length tokens))) /\
          (0 <= Z.of_nat (length tokens))%Z) /\
      m !! "totalFillers" = Some (Int total_fillers) /\
      (exists fillers_per_min : Q,
          m !! "fillersPerMin" = Some (Float fillers_per_min) /\
          ((duration_seconds <= 0)%Q -> (fillers_per_min == 0)%Q) /\
          ((0 < duration_seconds)%Q ->
           rounded 2
             (inject_Z total_fillers / Qmax duration_seconds 0.1 * 60)
             fillers_per_min))) /\
  (words_from None "um, it's like a well-known uh you know thing"
     ["um"; "it's"; "like"; "a"; "well-known"; "uh"; "you"; "know"; "thing"] /\
   words_from None "'tis rock- and roll" ["tis"; "rock"; "and"; "roll"]) /\
  (let m :=
     compute_metrics "um, it's like a well-known uh you know thing" 7 in
   m !! "totalWords" = Some (Int 9) /\
   m !! "totalFillers" = Some (Int 4) /\
   exists fillers_per_min : Q,
     m !! "fillersPerMin" = Some (Float fillers_per_min) /\
     (fillers_per_min == 34.29)%Q) /\
  (let m := compute_metrics "'tis rock- and roll, um" 0 in
   m !! "totalWords" = Some (Int 5) /\
   m !! "totalFillers" = Some (Int 1) /\
   exists fillers_per_min : Q,
     m !! "fillersPerMin" = Some (Float fillers_per_min) /\
     (fillers_per_min == 0)%Q) /\
  (let m := compute_metrics "um" 0.05 in
   m !! "totalWords" = Some (Int 1) /\
   m !! "totalFillers" = Some (Int 1) /\
   exists fillers_per_min : Q,
     m !! "fillersPerMin" = Some (Float fillers_per_min) /\
     (fillers_per_min == 600)%Q).
Proof.
  split; [|split; [|split; [|split]]].
  - intros transcript duration_seconds. cbv zeta.
    destruct (compute_metrics_lookup transcript duration_seconds)
      as (_ & Hw & Hf & Hp).
    destruct (WordsFacts.findall_words transcript) as [Hwords Hunique].
    split.
    { exists (Re.findall word_pattern transcript).
      split; [reflexivity|]. split; [exact Hwords|].
      split; [exact Hunique|]. split; [exact Hw | lia]. }
    rewrite <- count_fillers_default.
    split; [exact Hf|].
    eexists. split; [exact Hp|]. split.
    + intros Hd. apply leb_true in Hd. rewrite Hd. reflexivity.
    + intros Hd. apply leb_false in Hd. rewrite Hd.
      eapply RoundFacts.rounded_compat; [|apply RoundFacts.round_rounded].
      rewrite max_Qmax. reflexivity.
  - split.
    + exact (proj1 (WordsFacts.findall_words
                      "um, it's like a well-known uh you know thing")).
    + exact (proj1 (WordsFacts.findall_words "'tis rock- and roll")).
  - destruct (compute_metrics_lookup
                "um, it's like a well-known uh you know thing" 7)
      as (_ & Ht & Hf & Hp).
    cbv zeta. split; [exact Ht|]. split; [exact Hf|].
    eexists. split; [exact Hp | reflexivity].
  - destruct (compute_metrics_lookup "'tis rock- and roll, um" 0)
      as (_ & Ht & Hf & Hp).
    cbv zeta. split; [exact Ht|]. split; [exact Hf|].
    eexists. split; [exact Hp | reflexivity].
  - destruct (compute_metrics_lookup "um" 0.05)
      as (_ & Ht & Hf & Hp).
    cbv zeta. split; [exact Ht|]. split; [exact Hf|].
    eexists. split; [exact Hp | reflexivity].
Qed.

End FieldFacts.

Module SilenceFacts.
Import Py PyFacts Pos TextFacts ReFacts Metrics.

Lemma lower_char_word (c : ascii) :
  Chars.is_word_char (Chars.lower_char c) = Chars.is_word_char c.
Proof. destruct c as [[] [] [] [] [] [] [] []]; reflexivity. Qed.

Lemma lower_no_word (s : string) :
  all_chars (fun c => negb (Chars.is_word_char c)) (Str.lower s) =
  all_chars (fun c => negb (Chars.is_word_char c)) s.
Proof.
  induction s as [|c s IH]; [reflexivity|].
  cbn [Str.lower all_chars]. rewrite lower_char_word, IH. reflexivity.
Qed.

(** Without a [\w] character there is no word boundary, so a pattern that
    opens with [\b] matches nowhere. *)
Lemma scan_no_boundary (p : Re.pattern) (s : string) :
  all_chars (fun c => negb (Chars.is_word_char c)) s = true ->
  forall (prev : option ascii) (skip : nat),
    Re.word_before prev = false ->
    Re.scan (Re.WordBoundary :: p) prev s skip = [].
Proof.
  induction s as [|d s IH]; intros Hall prev skip Hprev; cbn [Re.scan].
  - destruct skip; [|reflexivity]. cbn [Re.match_here].
    unfold Re.at_boundary. rewrite Hprev. reflexivity.
  - cbn [all_chars] in Hall. apply andb_true_iff in Hall as [Hd Hs].
    apply negb_true_iff in Hd.
    destruct skip; [|apply IH; assumption].
    cbn [Re.match_here]. unfold Re.at_boundary. cbn [Str.head Re.word_before].
    rewrite Hprev, Hd. cbn [xorb]. apply IH; assumption.
Qed.

Lemma count_fillers_no_boundary (transcript : string)
  (filler_list : option (list string)) :
  all_chars (fun c => negb (Chars.is_word_char c)) transcript = true ->
  count_fillers transcript filler_list = 0%Z.
Proof.
  intros Hall. unfold count_fillers.
  destruct (Str.is_empty transcript); [reflexivity|].
  generalize (default default_fillers filler_list). intros fillers.
  assert (forall f, Re.findall (filler_pattern f) (Str.lower transcript) = [])
    as Hnone.
  { intros f. apply scan_no_boundary; [|reflexivity].
    rewrite lower_no_word. exact Hall. }
  induction fillers as [|f fillers IH]; [reflexivity|].
  cbn [fold_left]. cbv zeta. rewrite Hnone. exact IH.
Qed.

(** X2: a transcript without any [\w] character (punctuation, white
    space, or nothing at all) has no word token and no filler occurrence,
    whatever the filler list, and its rate is 0 for every duration. *)
Theorem no_word_character (transcript : string) :
  all_chars (fun c => negb (Chars.is_word_char c)) transcript = true ->
  Re.findall word_pattern transcript = [] /\
  (forall filler_list : option (list string),
      count_fillers transcript filler_list = 0%Z) /\
  (forall duration_seconds : Q,
      compute_wpm transcript duration_seconds = 0%Q).
Proof.
  intros Hall.
  assert (Re.findall word_pattern transcript = []) as Hwords.
  { apply scan_no_boundary; [exact Hall | reflexivity]. }
  split; [exact Hwords|]. split.
  - intros filler_list. apply count_fillers_no_boundary, Hall.
  - intros d. apply MetricsFacts.compute_wpm_no_words, Hwords.
Qed.

(** The theorem on a transcript of punctuation and spaces. *)
Lemma no_word_character_witness :
  Re.findall word_pattern "... ?! --" = [] /\
  (forall filler_list : option (list string),
      count_fillers "... ?! --" filler_list = 0%Z) /\
  (forall duration_seconds : Q,
      compute_wpm "... ?! --" duration_seconds = 0%Q).
Proof. apply (no_word_character "... ?! --"). reflexivity. Defined.

End SilenceFacts.

Module RateFacts.
Import Py PyFacts Metrics.

Lemma count_fillers_nonneg (transcript : string)
  (filler_list : option (list string)) :
  (0 <= count_fillers transcript filler_list)%Z.
Proof.
  unfold count_fillers. destruct (Str.is_empty transcript); [lia|].
  generalize (default default_fillers filler_list). intros fillers.
  assert (forall a : Z, (0 <= a)%Z ->
            (0 <= fold_left
                    (fun total filler =>
                       (total + Z.of_nat
                                  (length (Re.findall (filler_pattern filler)
                                             (Str.lower transcript))))%Z)
                    fillers a)%Z) as H; [|apply H; lia].
  induction fillers as [|f fillers IH]; intros a Ha; cbn [fold_left];
    [exact Ha | apply IH; lia].
Qed.

(** The clamped duration is at least a tenth of a second. *)
Lemma safe_duration_floor (duration_seconds : Q) :
  (0.1 <= max duration_seconds 0.1)%Q.
Proof. apply max_lower_r. Qed.

(** A count turned into a rate per minute lies between 0 and 600 times
    the count. *)
Lemma rate_bounds (count : Z) (duration_seconds : Q) :
  (0 <= count)%Z ->
  (0 <= inject_Z count / max duration_seconds 0.1 * 60)%Q /\
  (inject_Z count / max duration_seconds 0.1 * 60 <= 600 * inject_Z count)%Q.
Proof.
  intros Hcount. pose proof (safe_duration_floor duration_seconds) as Hsafe.
  set (safe := max duration_seconds 0.1) in *.
  assert (0 <= inject_Z count)%Q as Hc.
  { change 0%Q with (inject_Z 0). rewrite <- Zle_Qle. exact Hcount. }
  assert (0 < safe)%Q as Hpos by lra.
  assert (0 <= inject_Z count / safe)%Q as H0.
  { apply Qle_shift_div_l; [exact Hpos | lra]. }
  assert (inject_Z count / safe <= 10 * inject_Z count)%Q as H10.
  { apply Qle_shift_div_r; [exact Hpos | nra]. }
  split; lra.
Qed.

Lemma pow10_2 : (10 ^ 2 = 100)%Q.
Proof. reflexivity. Qed.

Lemma round2_scaled (x : Q) :
  (round x 2 * 100 == inject_Z (round_half_even (x * 100)))%Q.
Proof.
  unfold round. rewrite pow10_2.
  change (?a / 100)%Q with (a * (1 # 100))%Q. lra.
Qed.

(** Rounding to two places keeps a value between two integers. *)
Lemma round2_between (lo hi : Z) (x : Q) :
  (inject_Z lo <= x)%Q -> (x <= inject_Z hi)%Q ->
  (inject_Z lo <= round x 2)%Q /\ (round x 2 <= inject_Z hi)%Q.
Proof.
  intros Hlo Hhi.
  assert (100 * lo <= round_half_even (x * 100))%Z as H1.
  { apply round_half_even_lower. rewrite inject_Z_mult.
    change (inject_Z 100) with 100%Q. lra. }
  assert (round_half_even (x * 100) <= 100 * hi)%Z as H2.
  { apply round_half_even_upper. rewrite inject_Z_mult.
    change (inject_Z 100) with 100%Q. lra. }
  rewrite Zle_Qle, inject_Z_mult in H1, H2.
  change (inject_Z 100) with 100%Q in H1, H2.
  pose proof (round2_scaled x) as Hs. split; lra.
Qed.

(** X3: for every transcript and every finite duration (negative ones
    included; an infinite or NaN duration is outside the statement), the
    metrics are never negative, and the 0.1-second floor on the duration
    bounds both rates: wpm is at most 600 times totalWords and
    fillersPerMin at most 600 times totalFillers; wpm is 0 exactly when
    there is no word token. *)
Theorem metrics_bounds (transcript : string) (duration_seconds : Q) :
  exists (wpm fillers_per_min : Q) (total_words total_fillers : Z),
    let m := compute_metrics transcript duration_seconds in
    m !! "wpm" = Some (Float wpm) /\
    m !! "totalWords" = Some (Int total_words) /\
    m !! "totalFillers" = Some (Int total_fillers) /\
    m !! "fillersPerMin" = Some (Float fillers_per_min) /\
    (0 <= total_words)%Z /\ (0 <= total_fillers)%Z /\
    (0 <= wpm)%Q /\ (wpm <= 600 * inject_Z total_words)%Q /\
    (0 <= fillers_per_min)%Q /\
    (fillers_per_min <= 600 * inject_Z total_fillers)%Q /\
    ((wpm == 0)%Q <-> total_words = 0%Z).
Proof.
  destruct (MetricsFacts.compute_metrics_lookup transcript duration_seconds)
    as (Hw & Ht & Hf & Hp).
  do 4 eexists. cbv zeta.
  split; [exact Hw|]. split; [exact Ht|]. split; [exact Hf|].
  split; [exact Hp|].
  pose proof (count_fillers_nonneg transcript None) as Hfn.
  set (n := Z.of_nat (length (Re.findall word_pattern transcript))).
  assert (0 <= n)%Z as Hn by lia.
  split; [exact Hn|]. split; [exact Hfn|].
  assert (compute_wpm transcript duration_seconds = 0%Q /\ n = 0%Z \/
          (compute_wpm transcript duration_seconds
           = inject_Z n / max duration_seconds 0.1 * 60)%Q /\ (0 < n)%Z)
    as Hwpm.
  { unfold compute_wpm. fold n.
    destruct transcript as [|c t]; [left; split; reflexivity|].
    cbn [Str.is_empty]. fold n.
    destruct (Z.eqb_spec n 0) as [H0 | H0]; [left; auto | right].
    split; [reflexivity | lia]. }
  assert ((0 <= compute_wpm transcript duration_seconds)%Q /\
          (compute_wpm transcript duration_seconds <= 600 * inject_Z n)%Q /\
          ((compute_wpm transcript duration_seconds == 0)%Q <-> n = 0%Z))
    as (Hw0 & Hw600 & Hiff).
  { destruct Hwpm as [[-> ->] | [-> Hpos]].
    - split; [lra|]. split; [change (inject_Z 0) with 0%Q; lra|].
      split; reflexivity.
    - destruct (rate_bounds n duration_seconds Hn) as [H0 H600].
      split; [exact H0|]. split; [exact H600|].
      split; [|lia]. intros Hzero. exfalso.
      pose proof (safe_duration_floor duration_seconds) as Hsafe.
      assert (1 <= inject_Z n)%Q as H1.
      { change 1%Q with (inject_Z 1). rewrite <- Zle_Qle. lia. }
      assert (0 < inject_Z n / max duration_seconds 0.1)%Q as Hq.
      { apply Qlt_shift_div_l; lra. }
      lra. }
  split; [exact Hw0|]. split; [exact Hw600|].
  assert ((0 <= (if leb duration_seconds 0 then 0
                 else inject_Z (count_fillers transcript None)
                      / max duration_seconds 0.1 * 60))%Q /\
          ((if leb duration_seconds 0 then 0
            else inject_Z (count_fillers transcript None)
                 / max duration_seconds 0.1 * 60)
           <= 600 * inject_Z (count_fillers transcript None))%Q)
    as [Hf0 Hf600].
  { destruct (rate_bounds (count_fillers transcript None) duration_seconds Hfn)
      as [H0 H600].
    destruct (leb duration_seconds 0); [|split; assumption].
    assert (0 <= inject_Z (count_fillers transcript None))%Q as Hc.
    { change 0%Q with (inject_Z 0). rewrite <- Zle_Qle. exact Hfn. }
    split; lra. }
  set (rate := if leb duration_seconds 0 then 0%Q
               else (inject_Z (count_fillers transcript None)
                     / max duration_seconds 0.1 * 60)%Q) in *.
  destruct (round2_between 0 (600 * count_fillers transcript None) rate)
    as [Hr0 Hr600]; [exact Hf0 | rewrite inject_Z_mult; exact Hf600 |].
  rewrite inject_Z_mult in Hr600.
  split; [exact Hr0|]. split; [exact Hr600 | exact Hiff].
Qed.

End RateFacts.

Module DurationFacts.
Import Py PyFacts Metrics RateFacts.

Lemma max_monotone (a b c : Q) : (a <= b)%Q -> (max a c <= max b c)%Q.
Proof. intros H. unfold max. repeat py_case; lra. Qed.

(** A non-negative amount divided by more gives less. *)
Lemma div_antitone (a y1 y2 : Q) :
  (0 <= a)%Q -> (0 < y1)%Q -> (y1 <= y2)%Q -> (a / y2 <= a / y1)%Q.
Proof.
  intros Ha H1 H12. assert (0 < y2)%Q as H2 by lra.
  apply Qle_shift_div_l; [exact H1|].
  assert (a / y2 * y2 == a)%Q as Hq by (field; lra).
  assert (0 <= a / y2)%Q as H0 by (apply Qle_shift_div_l; lra).
  nra.
Qed.

(** X4: a longer duration never raises the rate: for one transcript,
    [compute_wpm] is non-increasing in the duration, over all durations
    (below the 0.1-second floor it is constant). *)
Theorem compute_wpm_antitone (transcript : string) (d1 d2 : Q) :
  (d1 <= d2)%Q ->
  (compute_wpm transcript d2 <= compute_wpm transcript d1)%Q.
Proof.
  intros Hd. unfold compute_wpm.
  destruct (Str.is_empty transcript); [lra|].
  set (n := Z.of_nat (length (Re.findall word_pattern transcript))).
  destruct (n =? 0)%Z; [lra|].
  assert (0 <= inject_Z n)%Q as Hn.
  { change 0%Q with (inject_Z 0). rewrite <- Zle_Qle. lia. }
  pose proof (safe_duration_floor d1) as H1.
  pose proof (max_monotone d1 d2 0.1 Hd) as H12.
  assert (inject_Z n / max d2 0.1 <= inject_Z n / max d1 0.1)%Q
    by (apply div_antitone; lra).
  lra.
Qed.

(** The theorem on "one two three" spoken in 1 and in 2 seconds: 90 words
    per minute against 180. *)
Lemma compute_wpm_antitone_witness :
  (compute_wpm "one two three" 2 <= compute_wpm "one two three" 1)%Q /\
  (compute_wpm "one two three" 2 == 90)%Q /\
  (compute_wpm "one two three" 1 == 180)%Q.
Proof.
  split; [apply (compute_wpm_antitone "one two three" 1 2); discriminate|].
  split; reflexivity.
Defined.

End DurationFacts.

Module HighlightOrder.
Import Pos TextFacts Metrics.

(** The entries of the loop carry increasing indices, from [idx] on and
    below [idx] plus the number of words. *)
Lemma highlights_from_indices (words : list string) (fillers : gset string) :
  forall idx : Z,
    StronglySorted Z.lt (wordIndex <$> highlights_from idx words fillers) /\
    Forall (fun i => (idx <= i < idx + Z.of_nat (length words))%Z)
      (wordIndex <$> highlights_from idx words fillers).
Proof.
  induction words as [|w words IH]; intros idx; cbn [highlights_from].
  - split; constructor.
  - destruct (IH (idx + 1)%Z) as [Hsorted Hrange].
    assert (Forall (fun i => (idx < i < idx + Z.of_nat (length (w :: words)))%Z)
              (wordIndex <$> highlights_from (idx + 1) words fillers))
      as Hrange'.
    { eapply List.Forall_impl; [|exact Hrange].
      cbn [length]. intros i Hi. lia. }
    destruct (bool_decide (Str.lower w ∈ fillers)).
    + cbn [fmap list_fmap wordIndex]. split.
      * constructor; [exact Hsorted|].
        eapply List.Forall_impl; [|exact Hrange']. cbv beta.
        cbn [length]. intros i Hi. lia.
      * constructor; [cbn [length]; lia|].
        eapply List.Forall_impl; [|exact Hrange']. cbv beta.
        cbn [length]. intros i Hi. lia.
    + split; [exact Hsorted|].
      eapply List.Forall_impl; [|exact Hrange']. cbv beta.
      cbn [length]. intros i Hi. lia.
Qed.

Lemma highlights_from_length (words : list string) (fillers : gset string) :
  forall idx : Z,
    (length (highlights_from idx words fillers) <= length words)%nat.
Proof.
  induction words as [|w words IH]; intros idx; cbn [highlights_from length];
    [lia|].
  specialize (IH (idx + 1)%Z).
  destruct (bool_decide (Str.lower w ∈ fillers)); cbn [length]; lia.
Qed.

(** X5: the highlights come in transcript order: their word indices are
    strictly increasing, each one is the index of a token of the
    white-space split, and there are at most as many highlights as
    tokens; this for every transcript and every filler list. *)
Theorem highlights_in_order (transcript : string)
  (filler_list : option (list string)) :
  let highlights := compute_highlights transcript filler_list in
  let tokens := Str.split transcript in
  StronglySorted Z.lt (wordIndex <$> highlights) /\
  Forall (fun i => (0 <= i < Z.of_nat (length tokens))%Z)
    (wordIndex <$> highlights) /\
  (length highlights <= length tokens)%nat.
Proof.
  cbv zeta. unfold compute_highlights.
  destruct (Str.is_empty transcript).
  - split; [constructor|]. split; [constructor | cbn; lia].
  - set (fillers := list_to_set _).
    destruct (highlights_from_indices (Str.split transcript) fillers 0)
      as [Hsorted Hrange].
    split; [exact Hsorted|]. split; [exact Hrange|].
    apply highlights_from_length.
Qed.

Lemma lower_char_is_space (c : ascii) :
  Chars.is_space (Chars.lower_char c) = Chars.is_space c.
Proof. destruct c as [[] [] [] [] [] [] [] []]; reflexivity. Qed.

Lemma lower_of_list (l : list ascii) :
  Str.lower (string_of_list_ascii l) =
  string_of_list_ascii (map Chars.lower_char l).
Proof.
  induction l as [|c l IH]; [reflexivity|].
  cbn [string_of_list_ascii Str.lower map]. rewrite IH. reflexivity.
Qed.

(** Lowering commutes with the white-space split. *)
Lemma split_from_lower (s : string) :
  forall cur : list ascii,
    Str.split_from (map Chars.lower_char cur) (Str.lower s) =
    map Str.lower (Str.split_from cur s).
Proof.
  assert (forall cur rest,
             Str.flush (map Chars.lower_char cur) (map Str.lower rest) =
             map Str.lower (Str.flush cur rest)) as Hflush.
  { intros [|c cur] rest; [reflexivity|].
    cbn [Str.flush map]. rewrite lower_of_list.
    change (Chars.lower_char c :: map Chars.lower_char cur)
      with (map Chars.lower_char (c :: cur)).
    rewrite map_rev. reflexivity. }
  induction s as [|c s IH]; intros cur; cbn [Str.lower Str.split_from].
  - apply (Hflush cur []).
  - rewrite lower_char_is_space. destruct (Chars.is_space c).
    + pose proof (IH []) as Hnil. cbn [map] in Hnil. rewrite Hnil.
      apply Hflush.
    + apply (IH (c :: cur)).
Qed.

Lemma highlights_from_lower (words : list string) (fillers : gset string) :
  forall idx : Z,
    highlights_from idx (map Str.lower words) fillers =
    highlights_from idx words fillers.
Proof.
  induction words as [|w words IH]; intros idx; [reflexivity|].
  cbn [map highlights_from]. rewrite lower_idem, !IH. reflexivity.
Qed.

(** X6: the highlights do not depend on letter case: lowering the
    transcript and the fillers leaves them unchanged. *)
Theorem compute_highlights_case_insensitive (transcript : string)
  (fillers : list string) :
  compute_highlights (Str.lower transcript) (Some (Str.lower <$> fillers)) =
  compute_highlights transcript (Some fillers).
Proof.
  unfold compute_highlights. rewrite is_empty_lower.
  destruct (Str.is_empty transcript); [reflexivity|].
  cbn [from_option]. unfold id, Str.split.
  pose proof (split_from_lower transcript []) as Hsplit. cbn [map] in Hsplit.
  rewrite Hsplit, highlights_from_lower.
  f_equal. f_equal. rewrite <- list_fmap_compose.
  apply list_fmap_ext. intros i f _. apply lower_idem.
Qed.

End HighlightOrder.

(** * Sentences *)

Module StripFacts.
Import Pos StrOps.

Lemma lstrip_head (s : string) (c : ascii) :
  Str.head (lstrip s) = Some c -> Chars.is_space c = false.
Proof.
  induction s as [|d s IH]; cbn [lstrip]; [discriminate|].
  destruct (Chars.is_space d) eqn:Hd; [exact IH|].
  intros [= <-]. exact Hd.
Qed.

Lemma lstrip_fixed (s : string) :
  (forall c, Str.head s = Some c -> Chars.is_space c = false) ->
  lstrip s = s.
Proof.
  destruct s as [|d s]; [reflexivity|]. intros H. cbn [lstrip].
  rewrite (H d eq_refl). reflexivity.
Qed.

(** [rstrip] keeps the first character or returns the empty string. *)
Lemma rstrip_head (s : string) (c : ascii) :
  Str.head (rstrip s) = Some c -> Str.head s = Some c.
Proof.
  destruct s as [|d s]; [discriminate|]. cbn [rstrip].
  destruct (rstrip s); [destruct (Chars.is_space d)|]; cbn; congruence.
Qed.

Lemma rstrip_last (s : string) :
  forall prev : option ascii,
    rstrip s <> ""%string ->
    exists c : ascii,
      last_before prev (rstrip s) = Some c /\ Chars.is_space c = false.
Proof.
  induction s as [|d s IH]; intros prev; cbn [rstrip]; [congruence|].
  destruct (rstrip s) as [|e r] eqn:Hr.
  - destruct (Chars.is_space d) eqn:Hd; [congruence|].
    intros _. exists d. split; [reflexivity | exact Hd].
  - intros _.
    change (last_before prev (String d (String e r)))
      with (last_before (Some d) (String e r)).
    apply (IH (Some d)). discriminate.
Qed.

Lemma rstrip_idem (s : string) : rstrip (rstrip s) = rstrip s.
Proof.
  induction s as [|d s IH]; [reflexivity|]. cbn [rstrip].
  destruct (rstrip s) as [|e r] eqn:Hr.
  - destruct (Chars.is_space d) eqn:Hd; [reflexivity|].
    cbn [rstrip]. rewrite Hd. reflexivity.
  - change (rstrip (String d (String e r)))
      with (match rstrip (String e r) with
            | EmptyString =>
                if Chars.is_space d then EmptyString else String d EmptyString
            | String d' r' => String d (String d' r')
            end).
    rewrite IH. reflexivity.
Qed.

(** Stripping twice is stripping once. *)
Lemma strip_idem (s : string) : strip (strip s) = strip s.
Proof.
  unfold strip.
  rewrite (lstrip_fixed (rstrip (lstrip s))); [apply rstrip_idem|].
  intros c Hc. apply rstrip_head in Hc. exact (lstrip_head _ _ Hc).
Qed.

Lemma strip_head (s : string) (c : ascii) :
  Str.head (strip s) = Some c -> Chars.is_space c = false.
Proof. intros Hc. apply rstrip_head in Hc. exact (lstrip_head _ _ Hc). Qed.

Lemma strip_last (s : string) (c : ascii) :
  last_before None (strip s) = Some c -> Chars.is_space c = false.
Proof.
  unfold strip. intros Hc.
  destruct (rstrip (lstrip s)) as [|d r] eqn:Hr; [discriminate Hc|].
  destruct (rstrip_last (lstrip s) None) as (c' & Hc' & Hspace);
    [rewrite Hr; discriminate|].
  rewrite Hr in Hc'. congruence.
Qed.

Lemma all_chars_lstrip (P : ascii -> bool) (s : string) :
  all_chars P s = true -> all_chars P (lstrip s) = true.
Proof.
  induction s as [|d s IH]; [reflexivity|]. cbn [lstrip all_chars].
  intros H. apply andb_true_iff in H as [Hd Hs].
  destruct (Chars.is_space d); [exact (IH Hs)|].
  cbn [all_chars]. rewrite Hd, Hs. reflexivity.
Qed.

Lemma all_chars_rstrip (P : ascii -> bool) (s : string) :
  all_chars P s = true -> all_chars P (rstrip s) = true.
Proof.
  induction s as [|d s IH]; [reflexivity|]. cbn [rstrip all_chars].
  intros H. apply andb_true_iff in H as [Hd Hs]. specialize (IH Hs).
  destruct (rstrip s) as [|e r].
  - destruct (Chars.is_space d); [reflexivity|].
    cbn [all_chars]. rewrite Hd. reflexivity.
  - change (all_chars P (String d (String e r)))
      with (P d && all_chars P (String e r)).
    rewrite Hd, IH. reflexivity.
Qed.

Lemma all_chars_strip (P : ascii -> bool) (s : string) :
  all_chars P s = true -> all_chars P (strip s) = true.
Proof. intros H. apply all_chars_rstrip, all_chars_lstrip, H. Qed.

End StripFacts.

Module SentenceFacts.
Import Pos TextFacts StrOps StripFacts Sentences.

(** The pieces of [re.split] hold no character of the class. *)
Lemma split_from_pieces (sep : ascii -> bool) (s : string) :
  forall (cur : list ascii) (in_run : bool) (piece : string),
    forallb (fun c => negb (sep c)) cur = true ->
    In piece (ReSplit.split_from sep cur in_run s) ->
    all_chars (fun c => negb (sep c)) piece = true.
Proof.
  induction s as [|d s IH]; intros cur in_run piece Hcur;
    cbn [ReSplit.split_from].
  - intros [<- | []]. rewrite all_chars_of_list, forallb_rev. exact Hcur.
  - destruct (sep d) eqn:Hd.
    + destruct in_run.
      * apply IH. reflexivity.
      * intros [<- | Hin]; [|exact (IH [] true piece eq_refl Hin)].
        rewrite all_chars_of_list, forallb_rev. exact Hcur.
    + apply IH. cbn [forallb]. rewrite Hd. exact Hcur.
Qed.

(** A text without a character of the class is its own single piece. *)
Lemma split_from_whole (sep : ascii -> bool) (s : string) :
  forall cur : list ascii,
    all_chars (fun c => negb (sep c)) s = true ->
    ReSplit.split_from sep cur false s =
    [string_of_list_ascii (rev cur ++ list_ascii_of_string s)].
Proof.
  induction s as [|d s IH]; intros cur Hs;
    cbn [ReSplit.split_from list_ascii_of_string].
  - rewrite app_nil_r. reflexivity.
  - cbn [all_chars] in Hs. apply andb_true_iff in Hs as [Hd Hs].
    apply negb_true_iff in Hd. rewrite Hd, (IH _ Hs).
    cbn [rev]. rewrite <- app_assoc. reflexivity.
Qed.

(** The sentences of a list of pieces: [[p.strip() for p in parts if
    p.strip()]]. *)
Lemma split_sentences_pieces (transcript : string) :
  split_sentences transcript =
  map strip
    (List.filter (fun p => negb (Str.is_empty (strip p)))
       (ReSplit.split is_terminator transcript)).
Proof. destruct transcript; reflexivity. Qed.

Lemma sentence_shape (transcript sentence : string) :
  In sentence (split_sentences transcript) ->
  sentence <> ""%string /\
  all_chars (fun c => negb (is_terminator c)) sentence = true /\
  strip sentence = sentence.
Proof.
  rewrite split_sentences_pieces. intros Hin.
  apply in_map_iff in Hin as (piece & <- & Hin).
  apply filter_In in Hin as [Hin Hkeep].
  split; [|split].
  - intros Hempty. rewrite Hempty in Hkeep. discriminate Hkeep.
  - apply all_chars_strip.
    exact (split_from_pieces is_terminator transcript [] false piece
             eq_refl Hin).
  - apply strip_idem.
Qed.

(** X7: every sentence returned by [split_sentences] is non-empty, holds
    none of the characters [.], [?], [!], and neither begins nor ends
    with white space (stripping it again changes nothing). *)
Theorem split_sentences_shape (transcript : string) :
  Forall
    (fun sentence =>
       sentence <> ""%string /\
       all_chars (fun c => negb (is_terminator c)) sentence = true /\
       strip sentence = sentence /\
       (forall c, Str.head sentence = Some c -> Chars.is_space c = false) /\
       (forall c, last_before None sentence = Some c ->
                  Chars.is_space c = false))
    (split_sentences transcript).
Proof.
  apply List.Forall_forall. intros sentence Hin.
  destruct (sentence_shape transcript sentence Hin) as (Hne & Hterm & Hstrip).
  split; [exact Hne|]. split; [exact Hterm|]. split; [exact Hstrip|].
  rewrite <- Hstrip. split; intros c.
  - apply strip_head.
  - apply strip_last.
Qed.

(** X8: splitting is stable on its own output: a sentence returned by
    [split_sentences], split again, is that one sentence. *)
Theorem split_sentences_stable (transcript sentence : string) :
  In sentence (split_sentences transcript) ->
  split_sentences sentence = [sentence].
Proof.
  intros Hin.
  destruct (sentence_shape transcript sentence Hin) as (Hne & Hterm & Hstrip).
  rewrite split_sentences_pieces. unfold ReSplit.split.
  rewrite (split_from_whole is_terminator sentence [] Hterm).
  cbn [rev app]. rewrite string_of_list_ascii_of_string.
  cbn [List.filter]. rewrite Hstrip.
  destruct sentence; [contradiction|]. cbn [Str.is_empty negb map].
  rewrite Hstrip. reflexivity.
Qed.

(** The theorem on the second sentence of "Hello there. How are you?". *)
Lemma split_sentences_stable_witness :
  split_sentences "Hello there. How are you?" = ["Hello there"; "How are you"]
  /\ split_sentences "How are you" = ["How are you"].
Proof.
  split; [reflexivity|].
  apply (split_sentences_stable "Hello there. How are you?" "How are you").
  right. left. reflexivity.
Defined.

(** The kept pieces of a list of pieces. *)
Lemma kept_app (l1 l2 : list string) :
  map strip
    (List.filter (fun p => negb (Str.is_empty (strip p))) (l1 ++ l2)%list) =
  (map strip (List.filter (fun p => negb (Str.is_empty (strip p))) l1)
   ++ map strip (List.filter (fun p => negb (Str.is_empty (strip p))) l2))%list.
Proof. rewrite List.filter_app, List.map_app. reflexivity. Qed.

Lemma kept_cons (p : string) (l : list string) :
  map strip (List.filter (fun p => negb (Str.is_empty (strip p))) (p :: l)) =
  (map strip (List.filter (fun p => negb (Str.is_empty (strip p))) [p])
   ++ map strip (List.filter (fun p => negb (Str.is_empty (strip p))) l))%list.
Proof. apply (kept_app [p] l). Qed.

(** A run already begun only hides an empty first piece. *)
Lemma split_from_in_run (sep : ascii -> bool) (s : string) :
  map strip
    (List.filter (fun p => negb (Str.is_empty (strip p)))
       (ReSplit.split_from sep [] true s)) =
  map strip
    (List.filter (fun p => negb (Str.is_empty (strip p)))
       (ReSplit.split_from sep [] false s)).
Proof.
  destruct s as [|d s]; [reflexivity|]. cbn [ReSplit.split_from].
  destruct (sep d); reflexivity.
Qed.

Lemma split_from_app (sep : ascii -> bool) (c : ascii) (b : string) :
  sep c = true ->
  forall (a : string) (cur : list ascii) (in_run : bool),
    (in_run = true -> cur = []) ->
    map strip
      (List.filter (fun p => negb (Str.is_empty (strip p)))
         (ReSplit.split_from sep cur in_run (a ++ String c b)%string)) =
    (map strip
       (List.filter (fun p => negb (Str.is_empty (strip p)))
          (ReSplit.split_from sep cur in_run a))
     ++ map strip
          (List.filter (fun p => negb (Str.is_empty (strip p)))
             (ReSplit.split_from sep [] false b)))%list.
Proof.
  intros Hc. induction a as [|d a IH]; intros cur in_run Hrun.
  - change ("" ++ String c b)%string with (String c b).
    cbn [ReSplit.split_from]. rewrite Hc. destruct in_run.
    + rewrite (Hrun eq_refl). rewrite split_from_in_run. reflexivity.
    + rewrite kept_cons, split_from_in_run. reflexivity.
  - change (String d a ++ String c b)%string
      with (String d (a ++ String c b)%string).
    cbn [ReSplit.split_from]. destruct (sep d).
    + destruct in_run.
      * apply IH. reflexivity.
      * rewrite kept_cons, (kept_cons _ (ReSplit.split_from sep [] true a)).
        rewrite IH by reflexivity. rewrite app_assoc. reflexivity.
    + apply IH. discriminate.
Qed.

(** X9: [split_sentences] distributes over a terminator: the sentences of
    [a], a character among [.], [?], [!], then [b] are the sentences of
    [a] followed by the sentences of [b]. *)
Theorem split_sentences_app (a b : string) (c : ascii) :
  is_terminator c = true ->
  split_sentences (a ++ String c b)%string =
  (split_sentences a ++ split_sentences b)%list.
Proof.
  intros Hc. rewrite !split_sentences_pieces. unfold ReSplit.split.
  apply split_from_app; [exact Hc | discriminate].
Qed.

(** The theorem on "Dr" + "." + " Smith came": the period of the
    abbreviation splits like any other. *)
Lemma split_sentences_app_witness :
  split_sentences "Dr. Smith came" =
  (split_sentences "Dr" ++ split_sentences " Smith came")%list /\
  split_sentences "Dr. Smith came" = ["Dr"; "Smith came"].
Proof.
  split; [|reflexivity].
  apply (split_sentences_app "Dr" " Smith came" "."%char). reflexivity.
Defined.

End SentenceFacts.

(** * Further properties of the scores *)

Module ScoreOrder.
Import Py PyFacts Coach PaceSpec PaceFacts FillerFacts ScoreFacts.

Lemma max_monotone_r (a b c : Q) : (b <= c)%Q -> (max a b <= max a c)%Q.
Proof. intros H. unfold max. repeat py_case; lra. Qed.

Lemma ratio_monotone (f1 f2 m : Q) :
  (0 < m)%Q -> (f1 <= f2)%Q -> (f1 / m <= f2 / m)%Q.
Proof.
  intros Hm Hf. apply Qle_shift_div_l; [exact Hm|].
  assert (f1 / m * m == f1)%Q as -> by (field; lra). exact Hf.
Qed.

(** X10: more fillers never score better: for one allowance, the
    filler-control score is non-increasing in the filler rate. *)
Theorem score_filler_control_antitone (f1 f2 max_allowed : Q) :
  (f1 <= f2)%Q ->
  (_score_filler_control f2 max_allowed
   <= _score_filler_control f1 max_allowed)%Q.
Proof.
  intros Hf.
  destruct (score_filler_control_range f1 max_allowed) as [Hlo1 Hhi1].
  destruct (score_filler_control_range f2 max_allowed) as [Hlo2 Hhi2].
  destruct (Qlt_le_dec 0 max_allowed) as [Hm | Hm].
  - destruct (Qlt_le_dec max_allowed f1) as [H1 | H1].
    + assert (max_allowed < f2)%Q as H2 by lra.
      rewrite (score_filler_control_over _ _ Hm H1).
      rewrite (score_filler_control_over _ _ Hm H2) in *. cbv zeta in *.
      pose proof (ratio_monotone f1 f2 max_allowed Hm Hf) as Hr.
      set (r1 := (f1 / max_allowed)%Q) in *.
      set (r2 := (f2 / max_allowed)%Q) in *.
      destruct (leb 3 r2) eqn:E2.
      * destruct (leb 3 r1); [lra|]. apply max_lower_l.
      * apply leb_false in E2.
        assert (leb 3 r1 = false) as -> by (apply leb_false; lra).
        apply max_monotone_r. rewrite !half. lra.
    + assert (_score_filler_control f1 max_allowed = 0.98%Q) as ->; [|lra].
      unfold _score_filler_control.
      apply leb_false in Hm. apply leb_true in H1. rewrite Hm, H1.
      reflexivity.
  - unfold _score_filler_control. apply leb_true in Hm. rewrite Hm. lra.
Qed.

(** The theorem at 4 and 5 fillers per minute against an allowance of 3:
    0.85 and 0.72. *)
Lemma score_filler_control_antitone_witness :
  (_score_filler_control 5 3 <= _score_filler_control 4 3)%Q /\
  (_score_filler_control 4 3 == 0.85)%Q /\
  (_score_filler_control 5 3 == 0.72)%Q.
Proof.
  split; [apply (score_filler_control_antitone 4 5 3); discriminate|].
  split; reflexivity.
Defined.

(** Equal arguments up to [==] give equal scores up to [==]. *)
Lemma score_filler_control_compat (f1 f2 m1 m2 : Q) :
  (f1 == f2)%Q -> (m1 == m2)%Q ->
  (_score_filler_control f1 m1 == _score_filler_control f2 m2)%Q.
Proof.
  intros Hf Hm. unfold _score_filler_control, max, ltb, leb.
  rewrite (Qleb_comp _ _ Hm _ _ (Qeq_refl 0)).
  rewrite (Qleb_comp _ _ Hf _ _ Hm).
  assert (f1 / m1 == f2 / m2)%Q as Hr by (rewrite Hf, Hm; reflexivity).
  rewrite (Qleb_comp _ _ (Qeq_refl 3) _ _ Hr).
  assert (0.98 - (f1 / m1 - 1) * ((0.98 - 0.2) / 2)
          == 0.98 - (f2 / m2 - 1) * ((0.98 - 0.2) / 2))%Q as Hs
    by (rewrite Hr; reflexivity).
  rewrite (Qleb_comp _ _ Hs _ _ (Qeq_refl 0.2)).
  repeat match goal with
         | |- context [if ?c then _ else _] => destruct c
         end; try reflexivity; exact Hs.
Qed.

(** X11: the filler-control score depends on the rate and the allowance
    only through their ratio: scaling both by one positive factor leaves
    the score unchanged. *)
Theorem score_filler_control_scale (k fillers_per_min max_allowed : Q) :
  (0 < k)%Q -> (0 < max_allowed)%Q ->
  (_score_filler_control (k * fillers_per_min) (k * max_allowed)
   == _score_filler_control fillers_per_min max_allowed)%Q.
Proof.
  intros Hk Hm.
  assert (0 < k * max_allowed)%Q as Hkm by nra.
  destruct (Qlt_le_dec max_allowed fillers_per_min) as [Hf | Hf].
  - assert (k * max_allowed < k * fillers_per_min)%Q as Hkf by nra.
    rewrite (score_filler_control_over _ _ Hm Hf).
    rewrite (score_filler_control_over _ _ Hkm Hkf). cbv zeta.
    assert (k * fillers_per_min / (k * max_allowed)
            == fillers_per_min / max_allowed)%Q as Hr by (field; lra).
    unfold max, ltb, leb.
    rewrite (Qleb_comp _ _ (Qeq_refl 3) _ _ Hr).
    assert (0.98 - (k * fillers_per_min / (k * max_allowed) - 1)
                   * ((0.98 - 0.2) / 2)
            == 0.98 - (fillers_per_min / max_allowed - 1)
                      * ((0.98 - 0.2) / 2))%Q as Hs
      by (rewrite Hr; reflexivity).
    rewrite (Qleb_comp _ _ Hs _ _ (Qeq_refl 0.2)).
    repeat match goal with
           | |- context [if ?c then _ else _] => destruct c
           end; try reflexivity; exact Hs.
  - assert (k * fillers_per_min <= k * max_allowed)%Q as Hkf by nra.
    unfold _score_filler_control.
    apply leb_false in Hm, Hkm. apply leb_true in Hf, Hkf.
    rewrite Hm, Hkm, Hf, Hkf. reflexivity.
Qed.

(** The theorem at 6 fillers per minute against 3, and at 12 against 6. *)
Lemma score_filler_control_scale_witness :
  (_score_filler_control (2 * 6) (2 * 3) == _score_filler_control 6 3)%Q /\
  (_score_filler_control 6 3 == 0.59)%Q.
Proof.
  split; [apply (score_filler_control_scale 2 6 3); reflexivity|].
  reflexivity.
Defined.

(** The pace score as a function of the normalised distance. *)
Lemma score_pace_outside (wpm : Q) (a b : num) :
  (0 < wpm)%Q -> ~ ((float a <= wpm)%Q /\ (wpm <= float b)%Q) ->
  _score_pace wpm [a; b] =
    if leb (code_diff wpm (float a) (float b)) 0.15 then 0.8%Q
    else if leb (code_diff wpm (float a) (float b)) 0.5 then 0.5%Q
    else 0.2%Q.
Proof.
  intros Hpos Hout. rewrite score_pace_pair.
  apply leb_false in Hpos. rewrite Hpos.
  assert (leb (float a) wpm && leb wpm (float b) = false) as ->;
    [|reflexivity].
  apply not_true_iff_false. rewrite andb_true_iff, !leb_true. exact Hout.
Qed.

Lemma step_antitone (d1 d2 : Q) :
  (d1 <= d2)%Q ->
  ((if leb d2 0.15 then 0.8 else if leb d2 0.5 then 0.5 else 0.2)
   <= (if leb d1 0.15 then 0.8 else if leb d1 0.5 then 0.5 else 0.2))%Q.
Proof. intros H. repeat py_case; lra. Qed.

Lemma width_positive (low high : Q) : (0 < max (high - low) 1)%Q.
Proof. pose proof (max_lower_r (high - low) 1). lra. Qed.

(** X12: below the target range the pace score never falls as the rate
    rises towards the range, and above it the score never rises as the
    rate moves further away; inside the range it is 0.95, the largest
    value.  This holds for every range with [low <= high]. *)
Theorem score_pace_by_distance (a b : num) (w1 w2 : Q) :
  (float a <= float b)%Q -> (0 < w1)%Q -> (w1 <= w2)%Q ->
  ((w2 <= float a)%Q ->
   (_score_pace w1 [a; b] <= _score_pace w2 [a; b])%Q) /\
  ((float b <= w1)%Q ->
   (_score_pace w2 [a; b] <= _score_pace w1 [a; b])%Q).
Proof.
  intros Hord H1 H12.
  set (low := float a) in *. set (high := float b) in *.
  pose proof (width_positive low high) as Hwidth.
  assert (forall w, (low <= w)%Q -> (w <= high)%Q ->
                    (0 < w)%Q -> _score_pace w [a; b] = 0.95%Q) as Hin.
  { intros w Hl Hh Hw. rewrite score_pace_pair. fold low high.
    apply leb_false in Hw. apply leb_true in Hl, Hh.
    rewrite Hw, Hl, Hh. reflexivity. }
  assert (forall w, (_score_pace w [a; b] <= 0.95)%Q) as Htop.
  { intros w.
    destruct (score_pace_values w [a; b]) as [-> | [-> | [-> | ->]]]; lra. }
  split.
  - intros H2.
    destruct (Qlt_le_dec w2 low) as [Hlt | Hge].
    + rewrite !score_pace_outside by (fold low high; lra). fold low high.
      apply step_antitone. unfold code_diff.
      assert (ltb w1 low = true) as -> by (apply ltb_true; lra).
      assert (ltb w2 low = true) as -> by (apply ltb_true; lra).
      unfold Qdiv. apply Qmult_le_compat_r; [lra|].
      apply Qlt_le_weak, Qinv_lt_0_compat, Hwidth.
    + rewrite (Hin w2) by lra. apply Htop.
  - intros H1'.
    destruct (Qlt_le_dec high w1) as [Hlt | Hge].
    + rewrite !score_pace_outside by (fold low high; lra). fold low high.
      apply step_antitone. unfold code_diff.
      assert (ltb w1 low = false) as -> by (apply ltb_false; lra).
      assert (ltb w2 low = false) as -> by (apply ltb_false; lra).
      unfold Qdiv. apply Qmult_le_compat_r; [lra|].
      apply Qlt_le_weak, Qinv_lt_0_compat, Hwidth.
    + rewrite (Hin w1) by lra. apply Htop.
Qed.

(** The theorem on the range [140, 170] at 100 and 137 words per minute
    (0.2 and 0.8). *)
Lemma score_pace_by_distance_witness :
  (_score_pace 100 [Int 140; Int 170] <= _score_pace 137 [Int 140; Int 170])%Q
  /\ _score_pace 100 [Int 140; Int 170] = 0.2%Q
  /\ _score_pace 137 [Int 140; Int 170] = 0.8%Q.
Proof.
  split; [|split; reflexivity].
  apply (score_pace_by_distance (Int 140) (Int 170) 100 137);
    [discriminate | reflexivity | discriminate | discriminate].
Defined.

End ScoreOrder.

Module ScoreEdges.
Import Py PyFacts Coach ScoreFacts.

(** X13: a persona without a [maxFillersPerMin] target (no persona, no
    targets, or targets without that key) is scored 0.5 for fillerControl
    and for confidence, whatever the metrics. *)
Theorem filler_control_without_allowance
  (metrics : gmap string num) (persona : option Persona) :
  t_maxFillersPerMin (targets_of persona) = None ->
  let dims := dimensions (score_against_persona metrics persona) in
  (fillerControl dims == 0.5)%Q /\ (confidence dims == 0.5)%Q.
Proof.
  intros Hnone. cbv zeta.
  destruct (score_against_persona_fields metrics persona)
    as (_ & Hn & _ & Hf & _).
  rewrite Hn, Hf, Hnone. cbn [from_option]. unfold id. cbn [float].
  unfold _score_filler_control. change (leb (inject_Z 0) 0) with true.
  cbv iota. split; reflexivity.
Qed.

(** The theorem for a persona whose targets hold only a range. *)
Lemma filler_control_without_allowance_witness :
  let persona :=
    Some {| p_id := "guest"; p_name := "Guest"; p_description := "";
            p_targets :=
              Some {| t_wpm := Some [Int 120; Int 150];
                      t_maxFillersPerMin := None |} |} in
  let dims := dimensions (score_against_persona ∅ persona) in
  (fillerControl dims == 0.5)%Q /\ (confidence dims == 0.5)%Q.
Proof.
  cbv zeta. apply filler_control_without_allowance. reflexivity.
Defined.

Lemma score_pace_top (wpm : Q) (target_range : list num) :
  (0.2 <= _score_pace wpm target_range)%Q /\
  (_score_pace wpm target_range <= 0.95)%Q.
Proof.
  destruct (score_pace_values wpm target_range) as [-> | [-> | [-> | ->]]];
    split; lra.
Qed.

(** X14: with clarity fixed at 0.9 and confidence tied to fillerControl,
    the scores are tighter than the dimension bounds: for every metrics
    dict and every persona the pace dimension is at most 0.95 and the
    overall score lies between 0.375 and 0.953. *)
Theorem overall_range (metrics : gmap string num) (persona : option Persona) :
  let result := score_against_persona metrics persona in
  (pace (dimensions result) <= 0.95)%Q /\
  (0.375 <= overall result)%Q /\ (overall result <= 0.953)%Q.
Proof.
  cbv zeta.
  destruct (score_against_persona_fields metrics persona)
    as (Hc & Hn & Hp & Hf & Ho).
  set (result := score_against_persona metrics persona) in *.
  set (dims := dimensions result) in *.
  assert ((0.2 <= pace dims)%Q /\ (pace dims <= 0.95)%Q) as [Hp0 Hp1].
  { rewrite Hp.
    match goal with
    | |- context [_score_pace ?w ?r] =>
        destruct (score_pace_top w r) as [H0 H1];
        destruct (round3_bounds 200 950 (_score_pace w r)) as [H2 H3]
    end.
    - change (inject_Z 200) with 200%Q. lra.
    - change (inject_Z 950) with 950%Q. lra.
    - change (inject_Z 200) with 200%Q in H2.
      change (inject_Z 950) with 950%Q in H3. split; lra. }
  assert ((0.2 <= fillerControl dims)%Q /\ (fillerControl dims <= 0.98)%Q)
    as [Hf0 Hf1].
  { rewrite Hf. apply round3_unit_range, score_filler_control_range. }
  assert (clarity dims == 0.9)%Q as Hc' by (rewrite Hc; reflexivity).
  split; [exact Hp1|].
  rewrite Ho, Hn.
  set (mean := ((pace dims + clarity dims + fillerControl dims
                 + fillerControl dims) / 4)%Q).
  assert (0.375 <= mean)%Q as Hm0 by (unfold mean; rewrite quarter; lra).
  assert (mean <= 0.9525)%Q as Hm1 by (unfold mean; rewrite quarter; lra).
  destruct (round3_bounds 375 953 mean) as [H2 H3].
  - change (inject_Z 375) with 375%Q. lra.
  - change (inject_Z 953) with 953%Q. lra.
  - change (inject_Z 375) with 375%Q in H2.
    change (inject_Z 953) with 953%Q in H3. split; lra.
Qed.

End ScoreEdges.

(** * The catalog *)

Module CatalogFacts.
Import Py PyFacts Pos Coach Metrics Profiles ScoreFacts.

(** The personas a lookup can return. *)
Lemma get_persona_cases (persona_id : string) (p : Persona) :
  get_persona persona_id = Some p ->
  (persona_id = "ted" \/ persona_id = "leader" \/ persona_id = "teacher") /\
  In (persona_id, p) PERSONAS.
Proof.
  unfold get_persona, PERSONAS. cbn [dict_get].
  destruct (String.eqb_spec persona_id "ted") as [-> | _].
  { intros [= <-]. split; [auto | left; reflexivity]. }
  destruct (String.eqb_spec persona_id "leader") as [-> | _].
  { intros [= <-]. split; [auto | right; left; reflexivity]. }
  destruct (String.eqb_spec persona_id "teacher") as [-> | _].
  { intros [= <-]. split; [auto | right; right; left; reflexivity]. }
  discriminate.
Qed.

(** X15: [get_persona] and [get_personas] agree: an id is resolved to a
    persona exactly when that persona is listed and carries this id; any
    other id gives [None]; the listing holds three personas in catalog
    order. *)
Theorem get_persona_listed :
  (forall (persona_id : string) (p : Persona),
      get_persona persona_id = Some p <->
      In p get_personas /\ p_id p = persona_id) /\
  (forall persona_id : string,
      get_persona persona_id = None <->
      ~ exists p, In p get_personas /\ p_id p = persona_id) /\
  p_id <$> get_personas = ["ted"; "leader"; "teacher"].
Proof.
  assert (forall persona_id p,
             get_persona persona_id = Some p <->
             In p get_personas /\ p_id p = persona_id) as Hiff.
  { intros persona_id p. split.
    - intros Hget.
      destruct (get_persona_cases _ _ Hget) as [_ Hin].
      split; [apply in_map_iff; exists (persona_id, p); auto|].
      cbn in Hin.
      destruct Hin as [[= <- <-] | [[= <- <-] | [[= <- <-] | []]]];
        reflexivity.
    - intros [Hin <-]. cbn in Hin.
      destruct Hin as [<- | [<- | [<- | []]]]; reflexivity. }
  split; [exact Hiff|]. split; [|reflexivity].
  intros persona_id. split.
  - intros Hnone (p & Hp). apply Hiff in Hp. congruence.
  - intros Hno. destruct (get_persona persona_id) as [p|] eqn:Hget;
      [|reflexivity].
    exfalso. apply Hno. exists p. apply Hiff. exact Hget.
Qed.

(** X16: against every persona of the catalog and for every finite
    duration (an infinite or NaN duration is outside the statement), a
    transcript without any [\w] character (nothing said) scores pace 0.2,
    fillerControl and confidence 0.98, and overall 0.765. *)
Theorem silent_transcript_score
  (persona_id : string) (p : Persona) (transcript : string)
  (duration_seconds : Q) :
  get_persona persona_id = Some p ->
  all_chars (fun c => negb (Chars.is_word_char c)) transcript = true ->
  let result :=
    score_against_persona (compute_metrics transcript duration_seconds)
      (Some p) in
  (pace (dimensions result) == 0.2)%Q /\
  (fillerControl (dimensions result) == 0.98)%Q /\
  (confidence (dimensions result) == 0.98)%Q /\
  (overall result == 0.765)%Q.
Proof.
  intros Hget Hsilent.
  destruct (MetricsFacts.compute_metrics_lookup transcript duration_seconds)
    as (Hw & _ & _ & Hp).
  rewrite (SilenceFacts.count_fillers_no_boundary _ None Hsilent) in Hp.
  assert (Re.findall word_pattern transcript = []) as Hwords
    by (apply SilenceFacts.scan_no_boundary; [exact Hsilent | reflexivity]).
  rewrite (MetricsFacts.compute_wpm_no_words _ _ Hwords) in Hw.
  assert (round
            (if leb duration_seconds 0 then 0
             else inject_Z 0 / max duration_seconds 0.1 * 60) 2
          = round 0 2) as Hzero.
  { apply round_compat. destruct (leb duration_seconds 0); [reflexivity|].
    unfold Qdiv. change (inject_Z 0) with 0%Q. lra. }
  rewrite Hzero in Hp.
  cbv zeta. unfold score_against_persona. rewrite Hw, Hp.
  destruct (get_persona_cases _ _ Hget) as [_ Hin]. cbn in Hin.
  destruct Hin as [[= <- <-] | [[= <- <-] | [[= <- <-] | []]]];
    vm_compute; repeat split; reflexivity.
Qed.

(** The theorem for the persona "ted" and a transcript of dots. *)
Lemma silent_transcript_score_witness :
  exists p : Persona,
    get_persona "ted" = Some p /\
    let result := score_against_persona (compute_metrics "..." 12) (Some p) in
    (pace (dimensions result) == 0.2)%Q /\
    (fillerControl (dimensions result) == 0.98)%Q /\
    (confidence (dimensions result) == 0.98)%Q /\
    (overall result == 0.765)%Q.
Proof.
  eexists. split; [reflexivity|].
  apply (silent_transcript_score "ted" _ "..." 12); reflexivity.
Defined.

End CatalogFacts.

(** * The request handlers *)

Module TtsFacts.
Import Coach Tts.

Lemma py_or_truthy (a b : option string) (url : string) :
  py_or a b = Some url -> Str.is_empty url = false ->
  a = Some url \/ (truthy a = false /\ b = Some url).
Proof.
  unfold py_or. destruct (truthy a) eqn:Ha; intros Hor Hurl; auto.
Qed.

(** The voice chosen for a persona is one of the three voices of the
    map, the default one when there is no persona. *)
Lemma voice_known (persona : option Persona) :
  let voice :=
    default (VOICE_MAP !!! "default")
      (VOICE_MAP !! match persona with
                    | Some p => p_id p
                    | None => "default"
                    end) in
  (voice = "en-US-natalie" \/ voice = "en-US-marcus" \/
   voice = "en-UK-hazel") /\
  (persona = None -> voice = "en-US-natalie").
Proof.
  cbv zeta. split; [|intros ->; reflexivity].
  set (key := match persona with Some p => p_id p | None => "default" end).
  change (VOICE_MAP !!! "default") with "en-US-natalie".
  unfold VOICE_MAP. rewrite !lookup_insert, lookup_empty.
  repeat case_decide; cbn [from_option]; auto.
Qed.

(** X17: when [generate_tts_with_murf] returns, the URL is not empty, an
    API key was set, and the service answered 200, to a request for one
    of the three voices of the map (the default voice when no persona is
    given), with a body whose [audioFile] is that URL, or, [audioFile]
    being absent or empty, whose [audioUrl] is; without a key it raises
    before any request, whatever the service would answer. *)
Theorem generate_tts_returns
  (MURF_API_KEY : option string)
  (post : string -> gmap string string -> gmap string string
          -> option http_response)
  (coaching_text : string) (persona : option Persona) :
  (forall url : string,
      generate_tts_with_murf MURF_API_KEY post coaching_text persona
      = inl url ->
      url <> ""%string /\
      truthy MURF_API_KEY = true /\
      exists (payload headers : gmap string string) (voice : string)
             (response : http_response) (data : gmap string string),
        post MURF_URL payload headers = Some response /\
        payload !! "text" = Some coaching_text /\
        payload !! "voiceId" = Some voice /\
        (voice = "en-US-natalie" \/ voice = "en-US-marcus" \/
         voice = "en-UK-hazel") /\
        (persona = None -> voice = "en-US-natalie") /\
        headers !! "api-key" = MURF_API_KEY /\
        status_code response = 200%Z /\
        json response = Some data /\
        (data !! "audioFile" = Some url \/
         (truthy (data !! "audioFile") = false /\
          data !! "audioUrl" = Some url))) /\
  (truthy MURF_API_KEY = false ->
   generate_tts_with_murf MURF_API_KEY post coaching_text persona
   = inr NoApiKey).
Proof.
  unfold generate_tts_with_murf. split.
  - intros url.
    destruct MURF_API_KEY as [api_key|]; [|discriminate].
    destruct (Str.is_empty api_key) eqn:Hkey; [discriminate|].
    destruct (voice_known persona) as [Hvoice Hdefault].
    match goal with
    | |- context [post MURF_URL (<["voiceId" := ?v]> ?p) ?h] =>
        set (voice := v) in *; set (payload := <["voiceId" := voice]> p);
        set (headers := h);
        destruct (post MURF_URL payload headers) as [response|] eqn:Hpost
    end; [|discriminate].
    destruct (Z.eqb_spec (status_code response) 200) as [Hstatus|];
      [|discriminate].
    cbn [negb]. destruct (json response) as [data|] eqn:Hjson; [|discriminate].
    destruct (py_or (data !! "audioFile") (data !! "audioUrl")) as [u|] eqn:Hor;
      [|discriminate].
    destruct (Str.is_empty u) eqn:Hu; [discriminate|].
    intros [= <-]. split; [intros ->; discriminate Hu|].
    split; [cbn; rewrite Hkey; reflexivity|].
    exists payload, headers, voice, response, data.
    split; [exact Hpost|].
    split; [subst payload; simplify_map_eq; reflexivity|].
    split; [subst payload; apply lookup_insert_eq|].
    split; [exact Hvoice|]. split; [exact Hdefault|].
    split; [subst headers; simplify_map_eq; reflexivity|].
    split; [exact Hstatus|]. split; [exact Hjson|].
    exact (py_or_truthy _ _ _ Hor Hu).
  - destruct MURF_API_KEY as [api_key|]; [|reflexivity].
    cbn [truthy]. intros Hkey. apply negb_false_iff in Hkey.
    rewrite Hkey. reflexivity.
Qed.

(** A returned URL is never empty. *)
Lemma generate_tts_nonempty
  (MURF_API_KEY : option string)
  (post : string -> gmap string string -> gmap string string
          -> option http_response)
  (coaching_text url : string) (persona : option Persona) :
  generate_tts_with_murf MURF_API_KEY post coaching_text persona = inl url ->
  Str.is_empty url = false.
Proof.
  unfold generate_tts_with_murf.
  destruct MURF_API_KEY as [api_key|]; [|discriminate].
  destruct (Str.is_empty api_key); [discriminate|].
  destruct (post _ _ _) as [response|]; [|discriminate].
  destruct (negb _); [discriminate|].
  destruct (json response) as [data|]; [|discriminate].
  destruct (py_or _ _) as [u|]; [|discriminate].
  destruct (Str.is_empty u) eqn:Hu; [discriminate|].
  intros [= <-]. exact Hu.
Qed.

End TtsFacts.

Module ApiFacts.
Import Py Pos Coach Metrics Api StrOps StripFacts TtsFacts.

(** [strings_of] succeeds exactly on lists of strings. *)
Lemma strings_of_some (items : list json) :
  is_Some (strings_of items) <-> Forall (fun j => exists s, j = JStr s) items.
Proof.
  induction items as [|j items IH]; cbn [strings_of].
  - split; [constructor | intros _; eexists; reflexivity].
  - split.
    + intros Hsome.
      destruct j as [| | |s| |].
      1-3: destruct Hsome as [? [=]].
      2-3: destruct Hsome as [? [=]].
      constructor; [exists s; reflexivity|]. apply IH.
      destruct (strings_of items); [eexists; reflexivity|].
      destruct Hsome as [? [=]].
    + intros Hall. apply Forall_cons_1 in Hall as [[s ->] Hall].
      apply IH in Hall as [l ->]. eexists. reflexivity.
Qed.

(** The cases of a request: the persona lookup, the type of the tips and
    of the summary. *)
Ltac analyze_cases body coaching :=
  unfold analyze_speech;
  destruct (Profiles.get_persona (personaId body)) as [persona|] eqn:Hpersona;
  [ destruct (coaching !! "tips") as [[| | | |items|]|] eqn:Htips;
    try (destruct (strings_of items) as [tips|] eqn:Hitems);
    destruct (coaching !! "summary") as [[| | |summary| |]|] eqn:Hsummary;
    cbn [option_map from_option fst snd]; unfold id
  | cbn [fst snd] ].

(** X18: a request ends in one of three ways.  It is refused with status
    400 exactly when the persona id is unknown.  It succeeds exactly when
    the persona is known, the coaching summary is a string or absent, and
    the tips, if they are a list, hold strings only; otherwise the
    concatenation raises.  A request that does not succeed leaves the
    cache as it was. *)
Theorem analyze_speech_outcomes (body : AnalyzeSpeechRequest)
  (coaching : gmap string json) (attempt_id : string)
  (attempt_cache : gmap string (gmap string string)) :
  let result := analyze_speech body coaching attempt_id attempt_cache in
  (Profiles.get_persona (personaId body) = None <->
   fst result = HttpError 400 "Unknown personaId") /\
  ((exists payload, fst result = Ok payload) <->
   is_Some (Profiles.get_persona (personaId body)) /\
   (coaching !! "summary" = None \/
    exists s, coaching !! "summary" = Some (JStr s)) /\
   (forall items, coaching !! "tips" = Some (JList items) ->
                  Forall (fun j => exists s, j = JStr s) items)) /\
  ((forall payload, fst result <> Ok payload) -> snd result = attempt_cache).
Proof.
  cbv zeta. analyze_cases body coaching.
  all: split;
    [split; intros H; first [reflexivity | discriminate H]|].
  all: split;
    [|intros H; first [reflexivity | exfalso; eapply H; reflexivity]].
  all: split.
  all: try (intros [payload H]; discriminate H).
  all: try (intros _; eexists; reflexivity).
  all: try solve [intros ([? [=]] & _)].
  all: try solve [intros (_ & [[=] | [? [=]]] & _)].
  all: try solve [intros (_ & _ & Htyped);
                  specialize (Htyped _ eq_refl);
                  apply strings_of_some in Htyped;
                  rewrite Hitems in Htyped; destruct Htyped as [? [=]]].
  all: intros _; (split; [eexists; reflexivity|]).
  all: (split; [first [left; reflexivity | right; eexists; reflexivity]|]).
  all: intros items' Heq; first [discriminate Heq | injection Heq as <-].
  all: apply strings_of_some; rewrite Hitems; eexists; reflexivity.
Qed.

(** The response of [confirm_feedback] on a cache entry that holds a
    coaching text. *)
Lemma confirm_feedback_entry
  (MURF_API_KEY : option string)
  (post : string -> gmap string string -> gmap string string
          -> option Tts.http_response)
  (body : ConfirmFeedbackRequest)
  (attempt_cache : gmap string (gmap string string))
  (data : gmap string string) (text : string) :
  attempt_cache !! cf_attemptId body = Some data ->
  data !! "coachingText" = Some text ->
  let response := confirm_feedback MURF_API_KEY post body attempt_cache in
  (text = ""%string ->
   response =
     {| audioUrl := None;
        fallbackText :=
          Some "No coaching text available for this attemptId." |}) /\
  (text <> ""%string ->
   (forall url,
       Tts.generate_tts_with_murf MURF_API_KEY post text None = inl url ->
       response = {| audioUrl := Some url; fallbackText := None |}) /\
   (forall e,
       Tts.generate_tts_with_murf MURF_API_KEY post text None = inr e ->
       response = {| audioUrl := None; fallbackText := Some text |})).
Proof.
  intros Hdata Htext. cbv zeta. unfold confirm_feedback.
  rewrite Hdata, Htext. cbn [from_option]. unfold id.
  split.
  - intros ->. reflexivity.
  - intros Hne. destruct text as [|c text]; [contradiction|].
    cbn [Str.is_empty]. split.
    + intros url Hurl. rewrite Hurl.
      cbn [Tts.truthy]. rewrite (generate_tts_nonempty _ _ _ _ _ Hurl).
      reflexivity.
    + intros e He. rewrite He. reflexivity.
Qed.

(** X19: a successful request and the confirmation that follows it.  The
    payload carries the attempt id it was given; the cache changes at
    that id only; and [confirm_feedback] on that id answers from the
    stored coaching text: the audio URL when the speech service returns
    one, the coaching text itself as fallback when the service fails, and
    a fixed message when the text is empty. *)
Theorem analyze_then_confirm (body : AnalyzeSpeechRequest)
  (coaching : gmap string json) (attempt_id : string)
  (attempt_cache cache' : gmap string (gmap string string))
  (payload : analyze_payload) :
  analyze_speech body coaching attempt_id attempt_cache
  = (Ok payload, cache') ->
  r_attemptId payload = attempt_id /\
  (forall other : string,
      other <> attempt_id -> cache' !! other = attempt_cache !! other) /\
  forall (MURF_API_KEY : option string)
         (post : string -> gmap string string -> gmap string string
                 -> option Tts.http_response)
         (persona_id : string),
    let text := r_coachingTextForTTS payload in
    let response :=
      confirm_feedback MURF_API_KEY post
        {| cf_attemptId := attempt_id; cf_personaId := persona_id |} cache' in
    (text = ""%string ->
     response =
       {| audioUrl := None;
          fallbackText :=
            Some "No coaching text available for this attemptId." |}) /\
    (text <> ""%string ->
     (forall url,
         Tts.generate_tts_with_murf MURF_API_KEY post text None = inl url ->
         response = {| audioUrl := Some url; fallbackText := None |}) /\
     (forall e,
         Tts.generate_tts_with_murf MURF_API_KEY post text None = inr e ->
         response = {| audioUrl := None; fallbackText := Some text |})).
Proof.
  analyze_cases body coaching; intros Hrun; try discriminate Hrun.
  all: injection Hrun as <- <-; cbn [r_attemptId r_coachingTextForTTS].
  all: split; [reflexivity|].
  all: split; [intros other Hother; apply lookup_insert_ne; congruence|].
  all: intros key post persona_id.
  all: eapply confirm_feedback_entry;
    [cbn [cf_attemptId]; apply lookup_insert_eq
    | simplify_map_eq; reflexivity].
Qed.

(** The theorem for the persona "ted", a summary and two tips, on an
    empty cache: the text kept for the confirmation is the summary, a
    dash, and the tips. *)
Lemma analyze_then_confirm_witness :
  let body :=
    {| personaId := "ted"; transcript := "um hello"; durationSeconds := 2 |} in
  let coaching : gmap string json :=
    <["summary" := JStr "Good start."]>
      (<["tips" := JList [JStr "Slow down."; JStr "Breathe."]]> ∅) in
  exists payload cache',
    analyze_speech body coaching "attempt-1" ∅ = (Ok payload, cache') /\
    r_coachingTextForTTS payload = "Good start. - Slow down. Breathe." /\
    confirm_feedback None (fun _ _ _ => None)
      {| cf_attemptId := "attempt-1"; cf_personaId := "ted" |} cache'
    = {| audioUrl := None;
         fallbackText := Some "Good start. - Slow down. Breathe." |}.
Proof.
  cbv zeta. do 2 eexists.
  match goal with
  | |- ?run = (Ok ?p, ?c) /\ _ =>
      assert (run = (Ok p, c)) as Hrun by reflexivity
  end.
  split; [exact Hrun|]. split; [reflexivity|].
  pose proof (analyze_then_confirm _ _ _ _ _ _ Hrun) as (_ & _ & Hconfirm).
  destruct (Hconfirm None (fun _ _ _ => None) "ted") as [_ Htext].
  destruct Htext as [_ Hfail]; [discriminate|].
  exact (Hfail Tts.NoApiKey eq_refl).
Defined.

(** X20: provided the speech service, when it answers with a body, sends
    strings under "audioFile" and "audioUrl" (the bodies of the model; a
    truthy value that is not a string is outside the statement),
    [confirm_feedback] answers with exactly one of an audio URL and a
    fallback text, and neither is ever empty; an attempt id that is not
    in the cache gets the fixed message for unknown attempts.  This holds
    whatever the cache holds, whether the key is set or not, and whether
    the request raises, is refused, or is answered. *)
Theorem confirm_feedback_answer
  (MURF_API_KEY : option string)
  (post : string -> gmap string string -> gmap string string
          -> option Tts.http_response)
  (body : ConfirmFeedbackRequest)
  (attempt_cache : gmap string (gmap string string)) :
  let response := confirm_feedback MURF_API_KEY post body attempt_cache in
  (is_Some (audioUrl response) <-> fallbackText response = None) /\
  (forall url, audioUrl response = Some url -> url <> ""%string) /\
  (forall text, fallbackText response = Some text -> text <> ""%string) /\
  (attempt_cache !! cf_attemptId body = None ->
   response =
     {| audioUrl := None;
        fallbackText := Some "No coaching text found for this attemptId." |}).
Proof.
  cbv zeta. unfold confirm_feedback.
  destruct (attempt_cache !! cf_attemptId body) as [data|].
  - destruct (Str.is_empty (default "" (data !! "coachingText")))
      eqn:Htext.
    + cbn [audioUrl fallbackText]. repeat split; try discriminate.
      * intros [? [=]].
      * intros text [= <-]. discriminate.
    + destruct (Tts.generate_tts_with_murf _ _ _ _) as [url|e] eqn:Htts.
      * pose proof (generate_tts_nonempty _ _ _ _ _ Htts) as Hurl.
        cbn [Tts.truthy]. rewrite Hurl. cbn [negb audioUrl fallbackText].
        repeat split; try discriminate.
        -- intros _. eexists. reflexivity.
        -- intros u [= <-] ->. discriminate Hurl.
      * cbn [Tts.truthy audioUrl fallbackText].
        repeat split; try discriminate.
        -- intros [? [=]].
        -- intros text [= <-] Hempty. rewrite Hempty in Htext.
           discriminate Htext.
  - cbn [audioUrl fallbackText]. repeat split; try discriminate.
    + intros [? [=]].
    + intros text [= <-]. discriminate.
Qed.

Lemma append_empty_r (s : string) : (s ++ "")%string = s.
Proof.
  induction s as [|c s IH]; [reflexivity|].
  change (String c s ++ "")%string with (String c (s ++ "")%string).
  rewrite IH. reflexivity.
Qed.

(** X21: the coaching text kept for speech is stripped: in a successful
    request [coachingTextForTTS] neither begins nor ends with white
    space, and when the tips are not a list it is the stripped
    summary. *)
Theorem coaching_text_stripped (body : AnalyzeSpeechRequest)
  (coaching : gmap string json) (attempt_id : string)
  (attempt_cache cache' : gmap string (gmap string string))
  (payload : analyze_payload) :
  analyze_speech body coaching attempt_id attempt_cache
  = (Ok payload, cache') ->
  let text := r_coachingTextForTTS payload in
  strip text = text /\
  (forall c, Str.head text = Some c -> Chars.is_space c = false) /\
  (forall c, last_before None text = Some c -> Chars.is_space c = false) /\
  ((forall items, coaching !! "tips" <> Some (JList items)) ->
   forall summary, coaching !! "summary" = Some (JStr summary) ->
                   text = strip summary).
Proof.
  analyze_cases body coaching; intros Hrun; try discriminate Hrun.
  all: injection Hrun as <- <-; cbn [r_coachingTextForTTS].
  all: split; [apply strip_idem|].
  all: split; [intros c; apply strip_head|].
  all: split; [intros c; apply strip_last|].
  all: intros Hnolist summary' Hs.
  all: try solve [exfalso; eapply Hnolist; reflexivity].
  all: try discriminate Hs.
  all: injection Hs as <-; cbn [Str.is_empty]; rewrite append_empty_r;
    reflexivity.
Qed.

(** The theorem for a summary with surrounding blanks and no tips. *)
Lemma coaching_text_stripped_witness :
  let body :=
    {| personaId := "leader"; transcript := "hello"; durationSeconds := 1 |} in
  let coaching : gmap string json :=
    <["summary" := JStr "  Well done. "]> ∅ in
  exists payload cache',
    analyze_speech body coaching "attempt-2" ∅ = (Ok payload, cache') /\
    r_coachingTextForTTS payload = "Well done." /\
    strip (r_coachingTextForTTS payload) = r_coachingTextForTTS payload.
Proof.
  cbv zeta. do 2 eexists.
  match goal with
  | |- ?run = (Ok ?p, ?c) /\ _ =>
      assert (run = (Ok p, c)) as Hrun by reflexivity
  end.
  split; [exact Hrun|]. split; [reflexivity|].
  exact (proj1 (coaching_text_stripped _ _ _ _ _ _ Hrun)).
Defined.

End ApiFacts.
